(** * Huawei Cloud KMS resource plugin: actions and registrations

    A shallow embedding of
    [tools/c7n_huaweicloud/c7n_huaweicloud/resources/kms.py].

    The module registers the [kms] resource type, five actions and one
    filter.  Every action reads fields of a key resource dictionary,
    builds an SDK request body and calls one method of the vendor
    client.  The embedding keeps the Python control flow: dictionary
    subscripts may raise [KeyError], set membership on an unhashable
    value raises [TypeError], the client may raise anything, and each
    [try ... except Exception as e: raise e] block is written out. *)

From Stdlib Require Import ZArith String List.
From stdpp Require Import gmap strings list fin_maps.

Open Scope string_scope.
Open Scope Z_scope.
Open Scope list_scope.

(** ** Python values *)

(** The JSON-like values found in resource dictionaries and policy
    data: [None], booleans, integers, strings and lists.  (Floats and
    nested dictionaries do not occur in the fields this module reads.) *)
#[warnings="-register-all"] Inductive value : Type :=
| VNone
| VBool (b : bool)
| VInt (z : Z)
| VStr (s : string)
| VList (l : list value).

(** A Python dict with string keys. *)
Abbreviation pydict := (gmap string value).

(** Hashable values up to Python equality: [True == 1] and [False == 0]
    hash alike, so booleans share the integer class. *)
Inductive hkey : Type :=
| KNone
| KInt (z : Z)
| KStr (s : string).

#[global] Instance hkey_eq_dec : EqDecision hkey.
Proof. solve_decision. Defined.

Definition hkey_enc (k : hkey) : unit + (Z + string) :=
  match k with
  | KNone => inl tt
  | KInt z => inr (inl z)
  | KStr s => inr (inr s)
  end.

Definition hkey_dec (x : unit + (Z + string)) : hkey :=
  match x with
  | inl _ => KNone
  | inr (inl z) => KInt z
  | inr (inr s) => KStr s
  end.

#[global] Instance hkey_countable : Countable hkey.
Proof. refine (inj_countable' hkey_enc hkey_dec _). by intros []. Defined.

(** [hash(v)]: defined for every value but lists. *)
Definition to_key (v : value) : option hkey :=
  match v with
  | VNone => Some KNone
  | VBool b => Some (KInt (if b then 1 else 0))
  | VInt z => Some (KInt z)
  | VStr s => Some (KStr s)
  | VList _ => None
  end.

(** [v == lit] for a string or integer literal [lit]. *)
Definition py_eq (v : value) (lit : hkey) : bool :=
  bool_decide (to_key v = Some lit).

(** A Python [set] of hashable values. *)
Abbreviation pyset := (gset hkey).

(** Iteration [for x in v]: lists yield their elements, strings their
    one-character substrings, anything else is not iterable. *)
Fixpoint chars (s : string) : list value :=
  match s with
  | EmptyString => []
  | String c s' => VStr (String c EmptyString) :: chars s'
  end.

Definition py_iter (v : value) : option (list value) :=
  match v with
  | VList l => Some l
  | VStr s => Some (chars s)
  | _ => None
  end.

(** ** SDK request bodies and calls *)

(** [OperateKeyRequestBody(key_id=..., sequence=...)]. *)
Record OperateKeyRequestBody : Type := {
  key_id : value;
  sequence : string
}.

(** [CreateKeyRequestBody(key_alias=...)]. *)
Record CreateKeyRequestBody : Type := {
  key_alias : value
}.

(** [ListKeysRequestBody(key_spec=..., limit=...)]. *)
Record ListKeysRequestBody : Type := {
  key_spec : string;
  limit : string
}.

(** One entry of [ListKeysResponse.key_details]; only [key_alias] is read. *)
Record KeyDetails : Type := {
  kd_key_alias : value
}.

(** [ListKeysResponse]: [key_details] is [None] when the attribute is unset. *)
Record ListKeysResponse : Type := {
  key_details : option (list KeyDetails)
}.

(** The five mutating client methods, each with the body of its request
    object ([EnableKeyRotationRequest], [DisableKeyRotationRequest],
    [EnableKeyRequest], [DisableKeyRequest], [CreateKeyRequest]). *)
Inductive mutation : Type :=
| enable_key_rotation (body : OperateKeyRequestBody)
| disable_key_rotation (body : OperateKeyRequestBody)
| enable_key (body : OperateKeyRequestBody)
| disable_key (body : OperateKeyRequestBody)
| create_key (body : CreateKeyRequestBody).

Inductive sdk_call : Type :=
| Mutate (m : mutation)
| list_keys (body : ListKeysRequestBody).

(** ** The world outside the module *)

(** The vendor client and the interpreter services the module uses.
    The client is a state machine: the answer to a call may depend on
    every earlier call.  [uuid4_hex n] is the hex string of the [n]-th
    identifier drawn from [uuid.uuid4()]. *)
Class host : Type := {
  conn : Type;
  Resp : Type;
  Exc : Type;
  client_mutate : conn -> mutation -> (Exc + Resp) * conn;
  client_list_keys : conn -> ListKeysRequestBody -> (Exc + ListKeysResponse) * conn;
  isinstance_Exception : Exc -> bool;
  uuid4_hex : nat -> string
}.

Section Runtime.
Context {K : host}.

(** Exceptions: the two the interpreter raises in this module, and
    whatever the client raises. *)
Inductive exn : Type :=
| KeyError (k : string)
| TypeError
| ClientExn (e : Exc).

(** What a function returns to its caller. *)
Inductive pyobj : Type :=
| PyNone
| PyInt (z : Z)
| PyResp (r : Resp).

(** How a client call ended: it raised, or it returned the response of
    a mutating method, or the response of [list_keys]. *)
Inductive sdk_result : Type :=
| Raised (e : Exc)
| Returned (r : Resp)
| Listed (l : ListKeysResponse).

(** A client call as observed from outside: the request and its result. *)
Record event : Type := {
  ev_call : sdk_call;
  ev_result : sdk_result
}.

(** Interpreter state while an action runs.  [resource] is the object
    bound to the action's [resource] parameter. *)
Record state (R : Type) : Type := {
  resource : R;
  cloud : conn;
  uuid_drawn : nat;
  calls : list event;
  stdout : list Resp
}.
Arguments resource {R} _.
Arguments cloud {R} _.
Arguments uuid_drawn {R} _.
Arguments calls {R} _.
Arguments stdout {R} _.

Inductive outcome (A : Type) : Type :=
| Ret (a : A)
| Raise (e : exn).
Arguments Ret {A} _.
Arguments Raise {A} _.

Definition M (R A : Type) : Type := state R -> outcome A * state R.

Definition ret {R A} (a : A) : M R A := fun s => (Ret a, s).

Definition raise {R A} (e : exn) : M R A := fun s => (Raise e, s).

Definition bind {R A B} (m : M R A) (k : A -> M R B) : M R B :=
  fun s =>
    match m s with
    | (Ret a, s') => k a s'
    | (Raise e, s') => (Raise e, s')
    end.

(** [except Exception as e]: every exception of the interpreter is an
    [Exception]; for the client's the host decides. *)
Definition is_Exception (e : exn) : bool :=
  match e with
  | KeyError _ => true
  | TypeError => true
  | ClientExn x => isinstance_Exception x
  end.

(** [try: m  except Exception as e: h e]. *)
Definition try_except {R A} (m : M R A) (h : exn -> M R A) : M R A :=
  fun s =>
    match m s with
    | (Ret a, s') => (Ret a, s')
    | (Raise e, s') => if is_Exception e then h e s' else (Raise e, s')
    end.

(** *** Primitive operations *)

(** [resource[k]] on the dict bound to [resource]. *)
Definition getitem (k : string) : M pydict value :=
  fun s =>
    match resource s !! k with
    | Some v => (Ret v, s)
    | None => (Raise (KeyError k), s)
    end.

(** [v in S] for a set [S]: hashing an unhashable value raises. *)
Definition py_in {R} (v : value) (S : pyset) : M R bool :=
  match to_key v with
  | Some k => ret (bool_decide (k ∈ S))
  | None => raise TypeError
  end.

(** [S.add(v)]. *)
Definition set_add {R} (S : pyset) (v : value) : M R pyset :=
  match to_key v with
  | Some k => ret ({[ k ]} ∪ S)
  | None => raise TypeError
  end.

(** [self.manager.get_client()]: the manager hands out the client whose
    state is [cloud]; the handle itself carries no data. *)
Definition get_client {R} : M R unit := ret tt.

(** [uuid.uuid4().hex]: draws the next identifier. *)
Definition uuid4 {R} : M R string :=
  fun s =>
    (Ret (uuid4_hex (uuid_drawn s)),
     {| resource := resource s; cloud := cloud s;
        uuid_drawn := S (uuid_drawn s);
        calls := calls s; stdout := stdout s |}).

(** One of the five mutating client methods. *)
Definition client_call {R} (m : mutation) : M R Resp :=
  fun s =>
    match client_mutate (cloud s) m with
    | (inr r, c') =>
        (Ret r,
         {| resource := resource s; cloud := c'; uuid_drawn := uuid_drawn s;
            calls := calls s ++ [ {| ev_call := Mutate m; ev_result := Returned r |} ];
            stdout := stdout s |})
    | (inl e, c') =>
        (Raise (ClientExn e),
         {| resource := resource s; cloud := c'; uuid_drawn := uuid_drawn s;
            calls := calls s ++ [ {| ev_call := Mutate m; ev_result := Raised e |} ];
            stdout := stdout s |})
    end.

(** [client.list_keys(request)]. *)
Definition client_list {R} (b : ListKeysRequestBody) : M R ListKeysResponse :=
  fun s =>
    match client_list_keys (cloud s) b with
    | (inr r, c') =>
        (Ret r,
         {| resource := resource s; cloud := c'; uuid_drawn := uuid_drawn s;
            calls := calls s ++ [ {| ev_call := list_keys b; ev_result := Listed r |} ];
            stdout := stdout s |})
    | (inl e, c') =>
        (Raise (ClientExn e),
         {| resource := resource s; cloud := c'; uuid_drawn := uuid_drawn s;
            calls := calls s ++ [ {| ev_call := list_keys b; ev_result := Raised e |} ];
            stdout := stdout s |})
    end.

(** [print(r)] of a response object. *)
Definition print {R} (r : Resp) : M R unit :=
  fun s =>
    (Ret tt,
     {| resource := resource s; cloud := cloud s; uuid_drawn := uuid_drawn s;
        calls := calls s; stdout := stdout s ++ [r] |}).

(** [for x in l: body], where [body] updates the loop-carried local [acc]. *)
Fixpoint for_in {R A L} (l : list A) (acc : L) (body : A -> L -> M R L) : M R L :=
  match l with
  | [] => ret acc
  | x :: l' => bind (body x acc) (fun acc' => for_in l' acc' body)
  end.

End Runtime.

Arguments resource {K R} _.
Arguments cloud {K R} _.
Arguments uuid_drawn {K R} _.
Arguments calls {K R} _.
Arguments stdout {K R} _.
Arguments Ret {K A} _.
Arguments Raise {K A} _.
Arguments TypeError {K}.
Arguments KeyError {K} _.
Arguments PyNone {K}.
Arguments PyInt {K} _.

Declare Scope py_scope.
Delimit Scope py_scope with py.
Notation "x <- m ;; k" := (bind m (fun x => k))
  (at level 100, m at next level, right associativity) : py_scope.
Notation "m ;;; k" := (bind m (fun _ => k))
  (at level 100, right associativity) : py_scope.
Open Scope py_scope.

(** ** The actions *)

(** [@Kms.action_registry.register("enable_key_rotation")] *)
Module rotationKey.
Section Action.
Context {K : host}.

Definition perform_action : M pydict pyobj :=
  let notSupportList : pyset :=
    {[ KStr "RSA_2048"; KStr "RSA_3072"; KStr "RSA_4096"; KStr "EC_P256";
       KStr "EC_P384"; KStr "SM2"; KStr "ML_DSA_44"; KStr "ML_DSA_65";
       KStr "ML_DSA_87" ]} in
  flag <- getitem "default_key_flag" ;;
  if py_eq flag (KStr "1") then ret (PyInt 0) else
  spec <- getitem "key_spec" ;;
  unsupported <- py_in spec notSupportList ;;
  if unsupported then ret (PyInt 0) else
  store <- getitem "keystore_id" ;;
  if negb (py_eq store (KInt 0)) then ret (PyInt 0) else
  st <- getitem "key_state" ;;
  live <- py_in st {[ KStr "2"; KStr "3"; KStr "4" ]} ;;
  if negb live then ret (PyInt 0) else
  get_client ;;;
  kid <- getitem "key_id" ;;
  seq <- uuid4 ;;
  let body := {| key_id := kid; sequence := seq |} in
  response <- try_except (client_call (enable_key_rotation body))
                         (fun e => raise e) ;;
  ret (PyResp response).

End Action.
End rotationKey.

(** [@Kms.action_registry.register("disable_key_rotation")] *)
Module disableRotationKey.
Section Action.
Context {K : host}.

Definition perform_action : M pydict pyobj :=
  let notSupportList : pyset :=
    {[ KStr "RSA_2048"; KStr "RSA_3072"; KStr "RSA_4096"; KStr "EC_P256";
       KStr "EC_P384"; KStr "SM2"; KStr "ML_DSA_44";
       KStr "ML_DSA_65"; KStr "ML_DSA_87" ]} in
  flag <- getitem "default_key_flag" ;;
  if py_eq flag (KStr "1") then ret (PyInt 0) else
  spec <- getitem "key_spec" ;;
  unsupported <- py_in spec notSupportList ;;
  if unsupported then ret (PyInt 0) else
  store <- getitem "keystore_id" ;;
  if negb (py_eq store (KInt 0)) then ret (PyInt 0) else
  st <- getitem "key_state" ;;
  live <- py_in st {[ KStr "2"; KStr "3"; KStr "4" ]} ;;
  if negb live then ret (PyInt 0) else
  get_client ;;;
  kid <- getitem "key_id" ;;
  seq <- uuid4 ;;
  let body := {| key_id := kid; sequence := seq |} in
  response <- try_except (client_call (disable_key_rotation body))
                         (fun e => raise e) ;;
  ret (PyResp response).

End Action.
End disableRotationKey.

(** [@Kms.action_registry.register("enable_key")] *)
Module enableKey.
Section Action.
Context {K : host}.

Definition perform_action : M pydict pyobj :=
  get_client ;;;
  kid <- getitem "key_id" ;;
  seq <- uuid4 ;;
  let body := {| key_id := kid; sequence := seq |} in
  response <- try_except (client_call (enable_key body))
                         (fun e => raise e) ;;
  ret (PyResp response).

End Action.
End enableKey.

(** [@Kms.action_registry.register("disable_key")] *)
Module disableKey.
Section Action.
Context {K : host}.

Definition perform_action : M pydict pyobj :=
  get_client ;;;
  kid <- getitem "key_id" ;;
  seq <- uuid4 ;;
  let body := {| key_id := kid; sequence := seq |} in
  response <- try_except (client_call (disable_key body))
                         (fun e => raise e) ;;
  ret (PyResp response).

End Action.
End disableKey.

(** [@Kms.action_registry.register("create-key")].  The class overrides
    [process], which the framework calls once per policy run with the
    whole list of resources; [data] is the action's entry in the
    policy ([self.data]).  Its [perform_action] only defers to the base
    class and is not reached from this [process]. *)
Module createKey.
Section Action.
Context {K : host}.

(** The body of [for alias in key_aliases]. *)
Definition create_if_new {R} (arr : pyset) (alias : value) : M R unit :=
  seen <- py_in alias arr ;;
  if negb seen then
    let body := {| key_alias := alias |} in
    try_except (r <- client_call (create_key body) ;; print r)
               (fun e => raise e)
  else ret tt.

Definition process (data : pydict) : M (list pydict) pyobj :=
  get_client ;;;
  let key_aliases := default (VList []) (data !! "key_aliases") in
  let body := {| key_spec := "ALL"; limit := "1000" |} in
  listKeyResponse <- client_list body ;;
  let arr : pyset := {[ KStr "default" ]} in
  details <- match key_details listKeyResponse with
             | Some l => ret l
             | None => raise TypeError
             end ;;
  arr <- for_in details arr (fun data arr => set_add arr (kd_key_alias data)) ;;
  aliases <- match py_iter key_aliases with
             | Some l => ret l
             | None => raise TypeError
             end ;;
  for_in aliases tt (fun alias _ => create_if_new arr alias) ;;;
  ret PyNone.

End Action.
End createKey.

(** The four actions that implement [perform_action(self, resource)]. *)
Inductive key_action : Type :=
| EnableKeyRotation
| DisableKeyRotation
| EnableKey
| DisableKey.

Definition perform_action {K : host} (a : key_action) : M pydict pyobj :=
  match a with
  | EnableKeyRotation => rotationKey.perform_action
  | DisableKeyRotation => disableRotationKey.perform_action
  | EnableKey => enableKey.perform_action
  | DisableKey => disableKey.perform_action
  end.

(** The client method each of them calls. *)
Definition request_of (a : key_action) (body : OperateKeyRequestBody) : mutation :=
  match a with
  | EnableKeyRotation => enable_key_rotation body
  | DisableKeyRotation => disable_key_rotation body
  | EnableKey => enable_key body
  | DisableKey => disable_key body
  end.

(** ** Registrations *)

(** A policy schema as written in the source: the arguments of its
    [type_schema] call (the helper lives in the host framework).
    Each property is kept as its name and JSON type. *)
Record schema : Type := {
  type_name : string;
  properties : list (string * string);
  rinherit : option string
}.

Definition type_schema (name : string) (props : list (string * string))
    (inherit : option string) : schema :=
  {| type_name := name; properties := props; rinherit := inherit |}.

(** [Kms.resource_type]. *)
Record TypeInfo : Type := {
  service : string;
  enum_spec : string * string * string;
  id : string;
  tag_resource_type : string;
  config_resource_support : bool
}.

(** The registries the module writes to: the provider's [resources]
    (type name to resource type), and the action and filter registries
    of the class [Kms] (name to the registered class's schema). *)
Record registries : Type := {
  resources : gmap string TypeInfo;
  Kms_action_registry : gmap string schema;
  Kms_filter_registry : gmap string schema
}.

(** [registry.register(name)(cls)] stores [cls] under [name]. *)
Definition register_resource (name : string) (t : TypeInfo) (g : registries) : registries :=
  {| resources := <[ name := t ]> (resources g);
     Kms_action_registry := Kms_action_registry g;
     Kms_filter_registry := Kms_filter_registry g |}.

Definition register_action (name : string) (sc : schema) (g : registries) : registries :=
  {| resources := resources g;
     Kms_action_registry := <[ name := sc ]> (Kms_action_registry g);
     Kms_filter_registry := Kms_filter_registry g |}.

Definition register_filter (name : string) (sc : schema) (g : registries) : registries :=
  {| resources := resources g;
     Kms_action_registry := Kms_action_registry g;
     Kms_filter_registry := <[ name := sc ]> (Kms_filter_registry g) |}.

Definition Kms_resource_type : TypeInfo :=
  {| service := "kms";
     enum_spec := ("list_keys", "key_details", "offset");
     id := "key_id";
     tag_resource_type := "kms";
     config_resource_support := true |}.

(** Importing the module runs its class decorators top to bottom. *)
Definition import_module (g : registries) : registries :=
  let g := register_resource "kms" Kms_resource_type g in
  let g := register_action "enable_key_rotation"
             (type_schema "enable_key_rotation" [] None) g in
  let g := register_action "disable_key_rotation"
             (type_schema "disable_key_rotation" [] None) g in
  let g := register_action "enable_key" (type_schema "enable_key" [] None) g in
  let g := register_action "disable_key" (type_schema "disable_key" [] None) g in
  let g := register_action "create-key"
             (type_schema "create-key"
                [("key_aliases", "array"); ("obs_url", "string")] None) g in
  register_filter "all_keys_disable"
    (type_schema "all_keys_disable" [] (Some "ValueFilter.schema")) g.

(** ** Specification vocabulary *)

(** [v] is the string [s]. *)
Definition is_str (v : value) (s : string) : bool :=
  match v with
  | VStr t => bool_decide (t = s)
  | _ => false
  end.

(** [v] equals the integer [0] ([False] does, as in Python). *)
Definition equals_zero (v : value) : bool :=
  match v with
  | VInt z => bool_decide (z = 0)
  | VBool b => negb b
  | _ => false
  end.

(** [hash(v)] does not raise. *)
Definition hashable (v : value) : bool :=
  match v with
  | VList _ => false
  | _ => true
  end.

(** Key specs for which rotation is not supported. *)
Definition unsupported_key_specs : list string :=
  ["RSA_2048"; "RSA_3072"; "RSA_4096"; "EC_P256"; "EC_P384";
   "SM2"; "ML_DSA_44"; "ML_DSA_65"; "ML_DSA_87"].

(** The eligibility checks in words: the default-key flag is not ["1"],
    the key spec is none of the unsupported ones, the keystore id
    equals 0, and the key state is one of ["2"], ["3"], ["4"]. *)
Definition eligible (r : pydict) : bool :=
  match r !! "default_key_flag", r !! "key_spec",
        r !! "keystore_id", r !! "key_state" with
  | Some flag, Some spec, Some store, Some st =>
      negb (is_str flag "1")
      && negb (existsb (is_str spec) unsupported_key_specs)
      && equals_zero store
      && existsb (is_str st) ["2"; "3"; "4"]
  | _, _, _, _ => false
  end.

(** The four fields the checks read are present, and the two looked up
    in sets are hashable, so that evaluating the checks cannot raise. *)
Definition gate_readable (r : pydict) : bool :=
  match r !! "default_key_flag", r !! "key_spec",
        r !! "keystore_id", r !! "key_state" with
  | Some _, Some spec, Some _, Some st => hashable spec && hashable st
  | _, _, _, _ => false
  end.

(** ** Vocabulary of the proofs *)

Section Vocabulary.
Context {K : host}.

(** How a mutating call ended, as a trace entry and as seen by the
    caller. *)
Definition result_of (x : Exc + Resp) : sdk_result :=
  match x with
  | inl e => Raised e
  | inr r => Returned r
  end.

Definition outcome_of (x : Exc + Resp) : outcome pyobj :=
  match x with
  | inl e => Raise (ClientExn e)
  | inr r => Ret (PyResp r)
  end.

(** The state after one identifier was drawn and the mutating call [m]
    came back with [res], leaving the client in [c']. *)
Definition after_issue (s : state pydict) (m : mutation) (res : sdk_result)
    (c' : conn) : state pydict :=
  {| resource := resource s; cloud := c'; uuid_drawn := S (uuid_drawn s);
     calls := calls s ++ [ {| ev_call := Mutate m; ev_result := res |} ];
     stdout := stdout s |}.

(** What the shared tail of the four [perform_action] bodies does from
    [get_client()] on: read [key_id], draw an identifier, call the
    client method [mk] once, and hand back its response or exception. *)
Definition issue (mk : OperateKeyRequestBody → mutation) (s : state pydict)
    : outcome pyobj * state pydict :=
  match resource s !! "key_id" with
  | None => (Raise (KeyError "key_id"), s)
  | Some kid =>
      let body := {| key_id := kid; sequence := uuid4_hex (uuid_drawn s) |} in
      let (x, c') := client_mutate (cloud s) (mk body) in
      (outcome_of x, after_issue s (mk body) (result_of x) c')
  end.

(** An outcome that did not come from the client. *)
Definition local_outcome {A} (out : outcome A) : Prop :=
  ∀ e, out ≠ Raise (ClientExn e).

(** How the runs [r1] of [enable_key_rotation] and [r2] of
    [disable_key_rotation] from the same state [s] relate: either both
    stop before touching anything, with the same result, or the
    resource is eligible and both go on to their client call. *)
Definition rotation_verdict (s : state pydict)
    (r1 r2 : outcome pyobj * state pydict) : Prop :=
  (∃ out, r1 = (out, s) ∧ r2 = (out, s)
          ∧ local_outcome out
          ∧ (out = Ret (PyInt 0) ∨ gate_readable (resource s) = false)
          ∧ (eligible (resource s) = false ∨ gate_readable (resource s) = false))
  ∨ (eligible (resource s) = true
     ∧ gate_readable (resource s) = true
     ∧ r1 = issue enable_key_rotation s
     ∧ r2 = issue disable_key_rotation s).

(** The call did not raise. *)
Definition succeeded (ev : event) : bool :=
  match ev_result ev with
  | Raised _ => false
  | _ => true
  end.

(** The mutating requests of a trace, in order. *)
Definition mutations (t : list event) : list mutation :=
  omap (λ ev, match ev_call ev with Mutate m => Some m | list_keys _ => None end) t.

(** The responses the mutating calls of a trace returned, in order. *)
Definition responses (t : list event) : list Resp :=
  omap (λ ev, match ev_result ev with Returned r => Some r | _ => None end) t.

Definition is_list_call (ev : event) : bool :=
  match ev_call ev with
  | list_keys _ => true
  | Mutate _ => false
  end.

(** The exception a run ended with, if any. *)
Definition raised {A} (out : outcome A) : option exn :=
  match out with
  | Ret _ => None
  | Raise e => Some e
  end.

(** A trace [t] agrees with the way the run that produced it ended: if
    the run ended in a client exception, the call that raised it is the
    last of the trace and every earlier call succeeded; otherwise every
    call succeeded. *)
Definition trace_ok (t : list event) (err : option exn) : Prop :=
  match err with
  | Some (ClientExn e) =>
      ∃ pre c, t = pre ++ [ {| ev_call := c; ev_result := Raised e |} ]
               ∧ Forall (λ ev, succeeded ev = true) pre
  | _ => Forall (λ ev, succeeded ev = true) t
  end.

(** The set the first loop builds from [arr]: [None] when some alias
    is unhashable. *)
Fixpoint collect (arr : pyset) (details : list KeyDetails) : option pyset :=
  match details with
  | [] => Some arr
  | d :: details' =>
      match to_key (kd_key_alias d) with
      | Some k => collect ({[ k ]} ∪ arr) details'
      | None => None
      end
  end.

(** The state after a call to a mutating client method returned. *)
Definition after_call {R} (s : state R) (m : mutation) (res : sdk_result)
    (c' : conn) (printed : list Resp) : state R :=
  {| resource := resource s; cloud := c'; uuid_drawn := uuid_drawn s;
     calls := calls s ++ [ {| ev_call := Mutate m; ev_result := res |} ];
     stdout := stdout s ++ printed |}.

(** [alias] is hashable and not in [arr]: the second loop creates it. *)
Definition fresh (arr : pyset) (alias : value) : bool :=
  match to_key alias with
  | Some k => bool_decide (k ∉ arr)
  | None => false
  end.

(** The create requests the second loop issues when nothing raises. *)
Definition expected (arr : pyset) (aliases : list value) : list mutation :=
  (λ alias, create_key {| key_alias := alias |}) <$> List.filter (fresh arr) aliases.

(** A client whose mutating methods always return. *)
Definition client_never_raises : Prop :=
  ∀ c m, ∃ r c', client_mutate c m = (inr r, c').

(** What holds of a run [r] of the second loop from state [s]. *)
Definition loop_post {R} (arr : pyset) (aliases : list value)
    (s : state R) (r : outcome unit * state R) : Prop :=
  ∃ t, calls r.2 = calls s ++ t
       ∧ resource r.2 = resource s
       ∧ uuid_drawn r.2 = uuid_drawn s
       ∧ stdout r.2 = stdout s ++ responses t
       ∧ trace_ok t (raised r.1)
       ∧ Forall (λ ev, is_list_call ev = false) t
       ∧ mutations t `prefix_of` expected arr aliases
       ∧ (raised r.1 = None → mutations t = expected arr aliases)
       ∧ (client_never_raises →
          Forall (λ a, hashable a = true) aliases → raised r.1 = None).

(** The body of the one [ListKeysRequest] the action sends. *)
Definition list_body : ListKeysRequestBody :=
  {| key_spec := "ALL"; limit := "1000" |}.

(** The state after [client.list_keys] came back. *)
Definition after_list {R} (s : state R) (res : sdk_result) (c' : conn) : state R :=
  {| resource := resource s; cloud := c'; uuid_drawn := uuid_drawn s;
     calls := calls s ++ [ {| ev_call := list_keys list_body; ev_result := res |} ];
     stdout := stdout s |}.

(** [self.data.get("key_aliases", [])]. *)
Definition key_aliases_of (data : pydict) : value :=
  default (VList []) (data !! "key_aliases").

(** The request [create-key] builds for [alias]. *)
Definition create_request (alias : value) : mutation :=
  create_key {| key_alias := alias |}.

(** What holds of every run [r] of [createKey.process] from state [s]:
    the trace it adds starts with the list call and goes on with create
    requests only, for aliases picked in order from [key_aliases]. *)
Definition process_post (data : pydict) (s : state (list pydict))
    (r : outcome pyobj * state (list pydict)) : Prop :=
  ∃ ev t,
    calls r.2 = calls s ++ ev :: t
    ∧ ev_call ev = list_keys list_body
    ∧ resource r.2 = resource s
    ∧ uuid_drawn r.2 = uuid_drawn s
    ∧ stdout r.2 = stdout s ++ responses t
    ∧ trace_ok (ev :: t) (raised r.1)
    ∧ Forall (λ ev, is_list_call ev = false) t
    ∧ (r.1 = Ret PyNone ∨ ∃ e, r.1 = Raise e)
    ∧ responses [ev] = []
    ∧ ∃ chosen, mutations t = create_request <$> chosen
                ∧ chosen `sublist_of` default [] (py_iter (key_aliases_of data)).

(** The five registered actions; [create-key] carries its policy data. *)
Inductive action : Type :=
| KeyAction (a : key_action)
| CreateKey (data : pydict).

(** What the framework binds to the parameter [resource]: one resource
    dict for [perform_action], the list of resources for [process]. *)
Definition arg (act : action) : Type :=
  match act with
  | KeyAction _ => pydict
  | CreateKey _ => list pydict
  end.

Definition invoke (act : action) : M (arg act) pyobj :=
  match act with
  | KeyAction a => perform_action a
  | CreateKey data => createKey.process data
  end.

(** What a run of [act] prints, given the trace it added. *)
Definition printed (act : action) (t : list event) : list Resp :=
  match act with
  | KeyAction _ => []
  | CreateKey _ => responses t
  end.

(** What holds of every run [r] of an action from state [s]. *)
Definition invoke_post (act : action) (s : state (arg act))
    (r : outcome pyobj * state (arg act)) : Prop :=
  ∃ t, calls r.2 = calls s ++ t
       ∧ trace_ok t (raised r.1)
       ∧ resource r.2 = resource s
       ∧ stdout r.2 = stdout s ++ printed act t
       ∧ match act with
         | KeyAction _ => (length t ≤ 1)%nat
         | CreateKey data =>
             ∃ chosen, mutations t = create_request <$> chosen
                       ∧ chosen `sublist_of` default [] (py_iter (key_aliases_of data))
         end.

(** The same interpreter state with another object bound to [resource]. *)
Definition with_resource {R R'} (x : R') (s : state R) : state R' :=
  {| resource := x; cloud := cloud s; uuid_drawn := uuid_drawn s;
     calls := calls s; stdout := stdout s |}.

(** Python [a == b] for a hashable [a] (a list equals no hashable
    value). *)
Definition py_equal (a b : value) : bool :=
  match to_key a, to_key b with
  | Some x, Some y => bool_decide (x = y)
  | _, _ => false
  end.

(** In words: [alias] is not the string ["default"] and equals no alias
    of the list-keys response. *)
Definition is_new (details : list KeyDetails) (alias : value) : bool :=
  negb (is_str alias "default")
  && negb (existsb (λ d, py_equal alias (kd_key_alias d)) details).

End Vocabulary.

(** ** Concrete hosts and inputs *)

(** A scripted client: it counts the calls it has seen, raises ["boom"]
    on call number [fail_at] and otherwise answers a mutating call by
    echoing the request, and [list_keys] with the aliases [known]. *)
Definition fails_now (fail_at : option nat) (n : nat) : bool :=
  match fail_at with
  | Some k => Nat.eqb k n
  | None => false
  end.

Definition scripted (known : list value) (fail_at : option nat) : host :=
  {| conn := nat;
     Resp := mutation;
     Exc := string;
     client_mutate := λ n m,
       (if fails_now fail_at n then inl "boom" else inr m, S n);
     client_list_keys := λ n b,
       (if fails_now fail_at n then inl "boom"
        else inr {| key_details := Some (Build_KeyDetails <$> known) |}, S n);
     isinstance_Exception := λ _, true;
     uuid4_hex := λ n, String (Ascii.ascii_of_nat (48 + n)) "" |}.

(** The interpreter state at the start of a run. *)
Definition start {K : host} {R} (r : R) (c : conn) : state R :=
  {| resource := r; cloud := c; uuid_drawn := 0; calls := []; stdout := [] |}.

(** An enabled symmetric key in the default keystore. *)
Definition plain_key : pydict :=
  list_to_map [("key_id", VStr "k1"); ("default_key_flag", VStr "0");
               ("key_spec", VStr "AES_256"); ("keystore_id", VInt 0);
               ("key_state", VStr "2")].

(** A default key. *)
Definition default_key : pydict :=
  list_to_map [("key_id", VStr "k0"); ("default_key_flag", VStr "1");
               ("key_spec", VStr "AES_256"); ("keystore_id", VInt 0);
               ("key_state", VStr "2")].

(** "Gated by the eligibility checks": action [a] makes no call for an
    ineligible resource. *)
Definition gated_by_eligibility {K : host} (a : key_action) : Prop :=
  ∀ s : state pydict,
    eligible (resource s) = false → calls (perform_action a s).2 = calls s.

(** "Builds its request from the key id and a sequence, and returns the
    SDK response unchanged", read over all five actions: whenever a
    mutating call of a run returned [r], its request was one of the four
    built from an [OperateKeyRequestBody], and the run returned [r]. *)
Definition hands_back_response {K : host} (act : action) : Prop :=
  ∀ (s : state (arg act)) (t : list event) (m : mutation) (r : Resp),
    calls (invoke act s).2 = calls s ++ t →
    {| ev_call := Mutate m; ev_result := Returned r |} ∈ t →
    (∃ a body, m = request_of a body) ∧ (invoke act s).1 = Ret (PyResp r).

(** "Never issues its mutating request more than once", read over all
    five actions, says at least: no run sends the same mutating request
    twice. *)
Definition never_repeats {K : host} (act : action) : Prop :=
  ∀ (s : state (arg act)) (t : list event),
    calls (invoke act s).2 = calls s ++ t → NoDup (mutations t).

(** ** Vocabulary of the further properties *)

(** The names of the fields the eligibility checks read, in the order
    the source reads them. *)
Definition gate_fields : list string :=
  ["default_key_flag"; "key_spec"; "keystore_id"; "key_state"].

(** What the inline checks of the two rotation actions come to, as a
    function of the resource alone: [Some out] when they end the action
    with [out], [None] when they let it go on to the client call. *)
Definition gate_result {K : host} (r : pydict) : option (outcome pyobj) :=
  match r !! "default_key_flag" with
  | None => Some (Raise (KeyError "default_key_flag"))
  | Some flag =>
      if is_str flag "1" then Some (Ret (PyInt 0)) else
      match r !! "key_spec" with
      | None => Some (Raise (KeyError "key_spec"))
      | Some spec =>
          if negb (hashable spec) then Some (Raise TypeError) else
          if existsb (is_str spec) unsupported_key_specs
          then Some (Ret (PyInt 0)) else
          match r !! "keystore_id" with
          | None => Some (Raise (KeyError "keystore_id"))
          | Some store =>
              if negb (equals_zero store) then Some (Ret (PyInt 0)) else
              match r !! "key_state" with
              | None => Some (Raise (KeyError "key_state"))
              | Some st =>
                  if negb (hashable st) then Some (Raise TypeError) else
                  if existsb (is_str st) ["2"; "3"; "4"] then None
                  else Some (Ret (PyInt 0))
              end
          end
      end
  end.

(** The two actions with eligibility checks. *)
Definition is_rotation (a : key_action) : bool :=
  match a with
  | EnableKeyRotation | DisableKeyRotation => true
  | EnableKey | DisableKey => false
  end.

(** The fields of the resource that action [a] reads. *)
Definition fields_read (a : key_action) : list string :=
  if is_rotation a then gate_fields ++ ["key_id"] else ["key_id"].

(** Two dicts hold the same value, or both nothing, under each of [ks]. *)
Definition agree_on (ks : list string) (r1 r2 : pydict) : Prop :=
  ∀ k, k ∈ ks → r1 !! k = r2 !! k.

(** An identifier source that never repeats: the [n]-th identifier is
    [n] letters ["f"] long. *)
Fixpoint hex_tag (n : nat) : string :=
  match n with
  | O => ""
  | S n' => String (Ascii.Ascii false true true false false true true false)
                   (hex_tag n')
  end.

(** The scripted client with that identifier source. *)
Definition scripted_fresh (known : list value) (fail_at : option nat) : host :=
  {| conn := nat;
     Resp := mutation;
     Exc := string;
     client_mutate := λ n m,
       (if fails_now fail_at n then inl "boom" else inr m, S n);
     client_list_keys := λ n b,
       (if fails_now fail_at n then inl "boom"
        else inr {| key_details := Some (Build_KeyDetails <$> known) |}, S n);
     isinstance_Exception := λ _, true;
     uuid4_hex := hex_tag |}.

(** ** Basic facts *)

Lemma py_eq_str v s : py_eq v (KStr s) = is_str v s.
Proof.
  unfold py_eq. destruct v as [|b|z|t|l]; simpl; try done.
  apply bool_decide_ext. split; [by intros [= ->] | by intros ->].
Qed.

Lemma py_eq_zero v : py_eq v (KInt 0) = equals_zero v.
Proof.
  unfold py_eq. destruct v as [|b|z|t|l]; simpl; try done.
  - by destruct b.
  - apply bool_decide_ext. split; [by intros [= ->] | by intros ->].
Qed.

Lemma to_key_hashable v : is_Some (to_key v) ↔ hashable v = true.
Proof. destruct v; simpl; split; (done || eauto || by intros [? [=]]). Qed.

Lemma to_key_str v s : to_key v = Some (KStr s) ↔ v = VStr s.
Proof.
  split; [|by intros ->].
  destruct v as [|b|z|t|l]; simpl; intros [=]; by subst.
Qed.

Lemma in_notSupportList v k :
  to_key v = Some k →
  bool_decide (k ∈ ({[ KStr "RSA_2048"; KStr "RSA_3072"; KStr "RSA_4096";
                       KStr "EC_P256"; KStr "EC_P384"; KStr "SM2";
                       KStr "ML_DSA_44"; KStr "ML_DSA_65";
                       KStr "ML_DSA_87" ]} : pyset))
  = existsb (is_str v) unsupported_key_specs.
Proof.
  intros Hk. symmetry.
  case_bool_decide as Hin.
  - set_unfold in Hin.
    repeat destruct Hin as [Hin|Hin]; subst k;
      apply to_key_str in Hk; by subst v.
  - apply not_true_is_false. intros Hex.
    apply existsb_exists in Hex as (s & Hs & Hv).
    destruct v as [|b|z|t|l]; simpl in Hv; try done.
    apply bool_decide_eq_true in Hv. subst t.
    simpl in Hk. injection Hk as <-.
    apply Hin. unfold unsupported_key_specs in Hs.
    apply list_elem_of_In in Hs. set_unfold.
    destruct_or!; subst; tauto.
Qed.

Lemma in_live_states v k :
  to_key v = Some k →
  bool_decide (k ∈ ({[ KStr "2"; KStr "3"; KStr "4" ]} : pyset))
  = existsb (is_str v) ["2"; "3"; "4"].
Proof.
  intros Hk. symmetry.
  case_bool_decide as Hin.
  - set_unfold in Hin.
    repeat destruct Hin as [Hin|Hin]; subst k;
      apply to_key_str in Hk; by subst v.
  - apply not_true_is_false. intros Hex.
    apply existsb_exists in Hex as (s & Hs & Hv).
    destruct v as [|b|z|t|l]; simpl in Hv; try done.
    apply bool_decide_eq_true in Hv. subst t.
    simpl in Hk. injection Hk as <-.
    apply Hin. apply list_elem_of_In in Hs. set_unfold.
    destruct_or!; subst; tauto.
Qed.

(** ** Stepping through an action *)

Section Steps.
Context {K : host}.

(** Catching an exception only to raise it again changes nothing. *)
Lemma try_except_reraise {R A} (m : M R A) (s : state R) :
  try_except m (fun e => raise e) s = m s.
Proof.
  unfold try_except, raise.
  destruct (m s) as [[a|e] s']; [done|].
  by destruct (is_Exception e).
Qed.

Lemma bind_getitem_Some {A} k v (f : value → M pydict A) s :
  resource s !! k = Some v → bind (getitem k) f s = f v s.
Proof. intros Hk. unfold bind, getitem. by rewrite Hk. Qed.

Lemma bind_getitem_None {A} k (f : value → M pydict A) s :
  resource s !! k = None → bind (getitem k) f s = (Raise (KeyError k), s).
Proof. intros Hk. unfold bind, getitem. by rewrite Hk. Qed.

Lemma bind_py_in_Some {R A} v k (S : pyset) (f : bool → M R A) s :
  to_key v = Some k → bind (py_in v S) f s = f (bool_decide (k ∈ S)) s.
Proof. intros Hk. unfold bind, py_in. by rewrite Hk. Qed.

Lemma bind_py_in_None {R A} v (S : pyset) (f : bool → M R A) s :
  to_key v = None → bind (py_in v S) f s = (Raise TypeError, s).
Proof. intros Hk. unfold bind, py_in. by rewrite Hk. Qed.

Lemma issue_tail (mk : OperateKeyRequestBody → mutation) (s : state pydict) :
  (get_client ;;;
   kid <- getitem "key_id" ;;
   seq <- uuid4 ;;
   let body := {| key_id := kid; sequence := seq |} in
   response <- try_except (client_call (mk body)) (fun e => raise e) ;;
   ret (PyResp response)) s = issue mk s.
Proof.
  unfold issue, get_client. unfold bind at 1. unfold ret at 1.
  destruct (resource s !! "key_id") as [kid|] eqn:Hkid.
  - rewrite (bind_getitem_Some _ _ _ _ Hkid).
    unfold bind at 1. unfold uuid4. cbv zeta.
    unfold bind. rewrite try_except_reraise.
    unfold client_call. simpl.
    by destruct (client_mutate (cloud s) _) as [[e|r] c'].
  - by rewrite (bind_getitem_None _ _ _ Hkid).
Qed.

Lemma enableKey_run s : enableKey.perform_action s = issue enable_key s.
Proof. apply issue_tail. Qed.

Lemma disableKey_run s : disableKey.perform_action s = issue disable_key s.
Proof. apply issue_tail. Qed.

Lemma hashable_to_key v : hashable v = true → ∃ k, to_key v = Some k.
Proof. destruct v; simpl; eauto; done. Qed.

Lemma unhashable_to_key v : hashable v = false → to_key v = None.
Proof. by destruct v. Qed.

Lemma verdict_stop s out :
  local_outcome out →
  out = Ret (PyInt 0) ∨ gate_readable (resource s) = false →
  eligible (resource s) = false ∨ gate_readable (resource s) = false →
  rotation_verdict s (out, s) (out, s).
Proof. intros. left. by exists out. Qed.

Lemma eligible_inv r :
  eligible r = true →
  ∃ flag spec store st,
    r !! "default_key_flag" = Some flag ∧ r !! "key_spec" = Some spec
    ∧ r !! "keystore_id" = Some store ∧ r !! "key_state" = Some st
    ∧ is_str flag "1" = false
    ∧ existsb (is_str spec) unsupported_key_specs = false
    ∧ equals_zero store = true
    ∧ existsb (is_str st) ["2"; "3"; "4"] = true.
Proof.
  unfold eligible. intros H.
  destruct (r !! "default_key_flag") as [flag|]; [|done].
  destruct (r !! "key_spec") as [spec|]; [|done].
  destruct (r !! "keystore_id") as [store|]; [|done].
  destruct (r !! "key_state") as [st|]; [|done].
  exists flag, spec, store, st.
  apply andb_prop in H as [H H4]. apply andb_prop in H as [H H3].
  apply andb_prop in H as [H1 H2].
  apply negb_true_iff in H1, H2. by repeat split.
Qed.

Lemma eligible_intro r flag spec store st :
  r !! "default_key_flag" = Some flag → r !! "key_spec" = Some spec →
  r !! "keystore_id" = Some store → r !! "key_state" = Some st →
  is_str flag "1" = false →
  existsb (is_str spec) unsupported_key_specs = false →
  equals_zero store = true →
  existsb (is_str st) ["2"; "3"; "4"] = true →
  eligible r = true.
Proof.
  unfold eligible. intros -> -> -> -> -> -> -> ->. done.
Qed.

(** A check that fails makes the resource ineligible. *)
Lemma not_eligible r :
  (∃ flag, r !! "default_key_flag" = Some flag ∧ is_str flag "1" = true)
  ∨ (∃ spec, r !! "key_spec" = Some spec
             ∧ existsb (is_str spec) unsupported_key_specs = true)
  ∨ (∃ store, r !! "keystore_id" = Some store ∧ equals_zero store = false)
  ∨ (∃ st, r !! "key_state" = Some st
           ∧ existsb (is_str st) ["2"; "3"; "4"] = false) →
  eligible r = false.
Proof.
  intros H. apply not_true_is_false. intros He.
  apply eligible_inv in He
    as (flag & spec & store & st & Hf & Hsp & Hks & Hst & ? & ? & ? & ?).
  destruct H as [(x & Hx & ?)|[(x & Hx & ?)|[(x & Hx & ?)|(x & Hx & ?)]]];
    congruence.
Qed.

(** A field that is missing, or an unhashable set operand, makes the
    checks unreadable. *)
Lemma not_readable r :
  r !! "default_key_flag" = None ∨ r !! "key_spec" = None
  ∨ r !! "keystore_id" = None ∨ r !! "key_state" = None
  ∨ (∃ spec, r !! "key_spec" = Some spec ∧ hashable spec = false)
  ∨ (∃ st, r !! "key_state" = Some st ∧ hashable st = false) →
  gate_readable r = false.
Proof.
  unfold gate_readable.
  intros [->|[H|[H|[H|[(x & H & Hx)|(x & H & Hx)]]]]]; [done|..];
    rewrite ?H; repeat case_match; simplify_eq; try done;
    rewrite ?Hx; by rewrite ?andb_false_r.
Qed.

Ltac stop_unreadable :=
  apply verdict_stop; [done | right | right]; apply not_readable; eauto 10.

Ltac stop_ineligible :=
  apply verdict_stop; [done | by left | left]; apply not_eligible; eauto 10.

Lemma rotation_gate s :
  rotation_verdict s (rotationKey.perform_action s)
                     (disableRotationKey.perform_action s).
Proof.
  unfold rotationKey.perform_action, disableRotationKey.perform_action.
  cbv zeta.
  (* if resource["default_key_flag"] == "1" *)
  destruct (resource s !! "default_key_flag") as [flag|] eqn:Hflag; cycle 1.
  { rewrite !(bind_getitem_None _ _ _ Hflag). stop_unreadable. }
  rewrite !(bind_getitem_Some _ _ _ _ Hflag), !py_eq_str.
  destruct (is_str flag "1") eqn:Hdefault; [stop_ineligible|].
  (* if resource["key_spec"] in notSupportList *)
  destruct (resource s !! "key_spec") as [spec|] eqn:Hspec; cycle 1.
  { rewrite !(bind_getitem_None _ _ _ Hspec). stop_unreadable. }
  rewrite !(bind_getitem_Some _ _ _ _ Hspec).
  destruct (hashable spec) eqn:Hhspec; cycle 1.
  { rewrite !(bind_py_in_None _ _ _ _ (unhashable_to_key _ Hhspec)).
    stop_unreadable. }
  destruct (hashable_to_key _ Hhspec) as [kspec Hkspec].
  rewrite !(bind_py_in_Some _ _ _ _ _ Hkspec), !(in_notSupportList _ _ Hkspec).
  destruct (existsb (is_str spec) unsupported_key_specs) eqn:Hunsup;
    [stop_ineligible|].
  (* if resource["keystore_id"] != 0 *)
  destruct (resource s !! "keystore_id") as [store|] eqn:Hstore; cycle 1.
  { rewrite !(bind_getitem_None _ _ _ Hstore). stop_unreadable. }
  rewrite !(bind_getitem_Some _ _ _ _ Hstore), !py_eq_zero.
  destruct (equals_zero store) eqn:Hzero; [|stop_ineligible].
  cbn [negb].
  (* if resource["key_state"] not in {"2", "3", "4"} *)
  destruct (resource s !! "key_state") as [st|] eqn:Hst; cycle 1.
  { rewrite !(bind_getitem_None _ _ _ Hst). stop_unreadable. }
  rewrite !(bind_getitem_Some _ _ _ _ Hst).
  destruct (hashable st) eqn:Hhst; cycle 1.
  { rewrite !(bind_py_in_None _ _ _ _ (unhashable_to_key _ Hhst)).
    stop_unreadable. }
  destruct (hashable_to_key _ Hhst) as [kst Hkst].
  rewrite !(bind_py_in_Some _ _ _ _ _ Hkst), !(in_live_states _ _ Hkst).
  destruct (existsb (is_str st) ["2"; "3"; "4"]) eqn:Hlive; [|stop_ineligible].
  (* the checks passed: both bodies continue with the shared tail *)
  cbn [negb]. right. rewrite !issue_tail.
  split; [by eapply eligible_intro|].
  split; [|done].
  unfold gate_readable. by rewrite Hflag, Hspec, Hstore, Hst, Hhspec, Hhst.
Qed.

(** *** Traces *)

Lemma trace_ok_nil {A} (out : outcome A) :
  local_outcome out → trace_ok [] (raised out).
Proof.
  intros Hloc. destruct out as [a|[k| |e]]; simpl; try done.
  by destruct (Hloc e).
Qed.

Lemma trace_ok_app t1 t2 err :
  Forall (λ ev, succeeded ev = true) t1 →
  trace_ok t2 err → trace_ok (t1 ++ t2) err.
Proof.
  intros H1. destruct err as [[k| |e]|]; simpl;
    try (intros H2; by apply Forall_app).
  intros (pre & c & -> & Hpre). exists (t1 ++ pre), c.
  split; [by rewrite app_assoc | by apply Forall_app].
Qed.

(** In an agreeing trace a call that raised is the last one, and the
    run ended with exactly its exception. *)
Lemma trace_ok_final t err pre ev post e :
  trace_ok t err →
  t = pre ++ ev :: post → ev_result ev = Raised e →
  post = [] ∧ err = Some (ClientExn e).
Proof.
  intros Hok -> Hev.
  assert (Hbad : ¬ Forall (λ ev, succeeded ev = true) (pre ++ ev :: post)).
  { rewrite Forall_app, Forall_cons. unfold succeeded at 2. rewrite Hev.
    by intros (_ & ? & _). }
  destruct err as [[k| |e0]|]; simpl in Hok; try done.
  destruct Hok as (pre0 & c & Heq & Hpre0).
  destruct post as [|p post _] using rev_ind.
  - apply app_inj_tail in Heq as [-> ->]. simpl in Hev. by injection Hev as ->.
  - rewrite app_comm_cons, app_assoc in Heq.
    apply app_inj_tail in Heq as [<- _].
    rewrite Forall_app, Forall_cons in Hpre0.
    unfold succeeded in Hpre0 at 2. rewrite Hev in Hpre0.
    by destruct Hpre0 as (_ & ? & _).
Qed.

(** *** The loops of [createKey.process] *)

Lemma seen_loop {R} details arr (s : state R) :
  for_in details arr (λ data arr, set_add arr (kd_key_alias data)) s
  = (match collect arr details with
     | Some arr' => Ret arr'
     | None => Raise TypeError
     end, s).
Proof.
  revert arr. induction details as [|d details IH]; intros arr; [done|].
  simpl. unfold bind, set_add.
  destruct (to_key (kd_key_alias d)) as [k|]; [|done].
  unfold ret at 1. apply IH.
Qed.

Lemma collect_elem details arr arr' k :
  collect arr details = Some arr' →
  k ∈ arr' ↔ k ∈ arr ∨ ∃ d, d ∈ details ∧ to_key (kd_key_alias d) = Some k.
Proof.
  revert arr. induction details as [|d details IH]; intros arr; simpl.
  - intros [= <-]. split; [auto|]. intros [?|(? & Hd & _)]; [done|].
    by apply elem_of_nil in Hd.
  - destruct (to_key (kd_key_alias d)) as [k0|] eqn:Hk0; [|done].
    intros Hc. rewrite (IH _ Hc). set_unfold. split.
    + intros [[->|?]|(d' & ? & ?)]; eauto 10.
    + intros [?|(d' & [->|?] & ?)]; eauto 10.
      left. left. congruence.
Qed.

(** One pass through the body of the second loop. *)
Lemma create_if_new_run {R} arr alias (s : state R) :
  createKey.create_if_new arr alias s =
  match to_key alias with
  | None => (Raise TypeError, s)
  | Some k =>
      if bool_decide (k ∈ arr) then (Ret tt, s)
      else
        let m := create_key {| key_alias := alias |} in
        match client_mutate (cloud s) m with
        | (inr r, c') => (Ret tt, after_call s m (Returned r) c' [r])
        | (inl e, c') => (Raise (ClientExn e), after_call s m (Raised e) c' [])
        end
  end.
Proof.
  unfold createKey.create_if_new.
  destruct (to_key alias) as [k|] eqn:Hk.
  - rewrite (bind_py_in_Some _ _ _ _ _ Hk).
    destruct (bool_decide (k ∈ arr)); [done|]. cbn [negb]. cbv zeta.
    rewrite try_except_reraise. unfold bind, client_call, print, after_call.
    destruct (client_mutate (cloud s) _) as [[e|r] c']; simpl; [|done].
    by rewrite app_nil_r.
  - by rewrite (bind_py_in_None _ _ _ _ Hk).
Qed.

Lemma expected_seen arr alias aliases k :
  to_key alias = Some k → k ∈ arr →
  expected arr (alias :: aliases) = expected arr aliases.
Proof.
  intros Hk Hin. unfold expected, fresh. cbn [List.filter]. rewrite Hk.
  by rewrite bool_decide_eq_false_2 by auto.
Qed.

Lemma expected_fresh arr alias aliases k :
  to_key alias = Some k → k ∉ arr →
  expected arr (alias :: aliases)
  = create_key {| key_alias := alias |} :: expected arr aliases.
Proof.
  intros Hk Hin. unfold expected, fresh. cbn [List.filter]. rewrite Hk.
  by rewrite bool_decide_eq_true_2.
Qed.

Lemma loop_run {R} arr aliases (s : state R) :
  loop_post arr aliases s
    (for_in aliases tt (λ alias _, createKey.create_if_new arr alias) s).
Proof.
  revert s. induction aliases as [|alias aliases IH]; intros s.
  { exists []. simpl. rewrite !app_nil_r. by repeat split. }
  cbn [for_in]. unfold bind. rewrite create_if_new_run.
  destruct (to_key alias) as [k|] eqn:Hk; cycle 1.
  { exists []. simpl. rewrite !app_nil_r. repeat split; try done.
    - apply prefix_nil.
    - intros _ Hall. apply Forall_cons in Hall as [Hh _].
      apply hashable_to_key in Hh as [? ?]. congruence. }
  case_bool_decide as Hin.
  { destruct (IH s) as (t & Hc & Hr & Hu & Hs & Hok & Hnl & Hp & Hfull & Htot).
    exists t. rewrite (expected_seen _ _ _ _ Hk Hin).
    repeat split; try done.
    intros Hnr Hall. apply Forall_cons in Hall as [_ Hall]. auto. }
  unfold loop_post. rewrite (expected_fresh _ _ _ _ Hk Hin). cbv zeta.
  destruct (client_mutate (cloud s) _) as [[e|r] c'] eqn:Hcall.
  - eexists [ _ ]. simpl. repeat split; try done.
    + by exists [], (Mutate (create_key {| key_alias := alias |})).
    + by repeat constructor.
    + simpl. apply prefix_cons, prefix_nil.
    + intros Hnr _. destruct (Hnr (cloud s) (create_key {| key_alias := alias |}))
        as (? & ? & ?). congruence.
  - destruct (IH (after_call s (create_key {| key_alias := alias |})
                             (Returned r) c' [r]))
      as (t & Hc & Hr & Hu & Hs & Hok & Hnl & Hp & Hfull & Htot).
    exists ({| ev_call := Mutate (create_key {| key_alias := alias |});
               ev_result := Returned r |} :: t).
    repeat split.
    + rewrite Hc. simpl. by rewrite <- app_assoc.
    + by rewrite Hr.
    + by rewrite Hu.
    + rewrite Hs. simpl. by rewrite <- app_assoc.
    + apply (trace_ok_app [_]); [by repeat constructor | done].
    + by constructor.
    + simpl. by apply prefix_cons.
    + intros Hnone. simpl. f_equal. auto.
    + intros Hnr Hall. apply Forall_cons in Hall as [_ Hall]. auto.
Qed.

(** *** [createKey.process] as a whole *)

Lemma process_unfold data s :
  createKey.process data s =
  match client_list_keys (cloud s) list_body with
  | (inl e, c') => (Raise (ClientExn e), after_list s (Raised e) c')
  | (inr resp, c') =>
      let s1 := after_list s (Listed resp) c' in
      match key_details resp with
      | None => (Raise TypeError, s1)
      | Some details =>
          match collect {[ KStr "default" ]} details with
          | None => (Raise TypeError, s1)
          | Some arr =>
              match py_iter (key_aliases_of data) with
              | None => (Raise TypeError, s1)
              | Some aliases =>
                  match for_in aliases tt
                          (λ alias _, createKey.create_if_new arr alias) s1 with
                  | (Ret _, s2) => (Ret PyNone, s2)
                  | (Raise e, s2) => (Raise e, s2)
                  end
              end
          end
      end
  end.
Proof.
  unfold createKey.process, get_client, key_aliases_of. cbv zeta.
  unfold bind at 1. unfold ret at 1.
  unfold bind at 1. unfold client_list at 1. fold list_body.
  destruct (client_list_keys (cloud s) list_body) as [[e|resp] c']; [done|].
  fold (after_list s (Listed resp) c').
  unfold bind at 1.
  destruct (key_details resp) as [details|]; [|done].
  unfold ret at 1. unfold bind at 1. rewrite seen_loop.
  destruct (collect _ details) as [arr|]; [|done].
  unfold bind at 1.
  destruct (py_iter _) as [aliases|]; [|done].
  unfold ret at 1. unfold bind at 1.
  by destruct (for_in aliases _ _ _) as [[[]|e] s2].
Qed.

Lemma filter_sublist {A} (f : A → bool) (l : list A) :
  List.filter f l `sublist_of` l.
Proof.
  induction l as [|x l IH]; simpl; [done|].
  destruct (f x); by constructor.
Qed.

Lemma prefix_expected_sublist arr aliases (ms : list mutation) :
  ms `prefix_of` expected arr aliases →
  ∃ chosen, ms = create_request <$> chosen ∧ chosen `sublist_of` aliases.
Proof.
  intros [rest Hrest]. unfold expected in Hrest.
  apply fmap_app_inv in Hrest as (chosen & others & -> & _ & Hf).
  exists chosen. split; [done|].
  transitivity (List.filter (fresh arr) aliases); [|apply filter_sublist].
  rewrite Hf. by apply sublist_inserts_r.
Qed.

Lemma process_run data s : process_post data s (createKey.process data s).
Proof.
  rewrite process_unfold.
  assert (Hstop : ∀ (res : sdk_result) c' (e : exn),
             trace_ok [ {| ev_call := list_keys list_body; ev_result := res |} ]
                      (Some e) →
             responses [ {| ev_call := list_keys list_body; ev_result := res |} ] = [] →
             process_post data s (Raise e, after_list s res c')).
  { intros res c' e Hok Hres.
    exists {| ev_call := list_keys list_body; ev_result := res |}, [].
    simpl. rewrite app_nil_r. repeat split; try done; eauto.
    exists []. split; [done|]. apply sublist_nil_l. }
  destruct (client_list_keys (cloud s) list_body) as [[e|resp] c'].
  { apply Hstop; [|done]. by exists [], (list_keys list_body). }
  cbv zeta.
  destruct (key_details resp) as [details|];
    [|apply Hstop; [by repeat constructor | done]].
  destruct (collect _ details) as [arr|];
    [|apply Hstop; [by repeat constructor | done]].
  destruct (py_iter (key_aliases_of data)) as [aliases|] eqn:Hiter;
    [|apply Hstop; [by repeat constructor | done]].
  destruct (loop_run arr aliases (after_list s (Listed resp) c'))
    as (t & Hc & Hr & Hu & Hs & Hok & Hnl & Hp & _).
  apply prefix_expected_sublist in Hp.
  assert (Hok' : ∀ err, trace_ok t err →
            trace_ok ({| ev_call := list_keys list_body;
                         ev_result := Listed resp |} :: t) err).
  { intros err. apply (trace_ok_app [_]). by repeat constructor. }
  unfold process_post. rewrite Hiter.
  destruct (for_in aliases _ _ _) as [[[]|e] s2]; cbn [fst snd] in *;
    exists {| ev_call := list_keys list_body; ev_result := Listed resp |}, t;
    (split; [rewrite Hc; simpl; by rewrite <- app_assoc|]);
    repeat split; try done; eauto.
Qed.

(** *** All five actions *)

Lemma issue_run mk s :
  ∃ t, calls (issue mk s).2 = calls s ++ t
       ∧ trace_ok t (raised (issue mk s).1)
       ∧ resource (issue mk s).2 = resource s
       ∧ stdout (issue mk s).2 = stdout s
       ∧ (length t ≤ 1)%nat.
Proof.
  unfold issue. destruct (resource s !! "key_id") as [kid|].
  - cbv zeta. destruct (client_mutate (cloud s) _) as [[e|r] c'].
    + eexists [_]. simpl. repeat split; try done.
      eexists [], _. split; [reflexivity | constructor].
    + eexists [_]. simpl. repeat split; try done. by repeat constructor.
  - exists []. simpl. rewrite app_nil_r. repeat split; try done. lia.
Qed.

Lemma stop_run (s : state pydict) (out : outcome pyobj) :
  local_outcome out →
  ∃ t, calls s = calls s ++ t ∧ trace_ok t (raised out)
       ∧ resource s = resource s ∧ stdout s = stdout s ∧ (length t ≤ 1)%nat.
Proof.
  intros Hloc. exists []. rewrite app_nil_r. repeat split; try done.
  - by apply trace_ok_nil.
  - simpl. lia.
Qed.

Lemma perform_action_run a s :
  ∃ t, calls (perform_action a s).2 = calls s ++ t
       ∧ trace_ok t (raised (perform_action a s).1)
       ∧ resource (perform_action a s).2 = resource s
       ∧ stdout (perform_action a s).2 = stdout s
       ∧ (length t ≤ 1)%nat.
Proof.
  destruct a; simpl.
  - destruct (rotation_gate s) as [(out & -> & _ & Hloc & _)|(_ & _ & -> & _)];
      [by apply stop_run | apply issue_run].
  - destruct (rotation_gate s) as [(out & _ & -> & Hloc & _)|(_ & _ & _ & ->)];
      [by apply stop_run | apply issue_run].
  - rewrite enableKey_run. apply issue_run.
  - rewrite disableKey_run. apply issue_run.
Qed.

Lemma invoke_run act s : invoke_post act s (invoke act s).
Proof.
  destruct act as [a|data]; simpl.
  - destruct (perform_action_run a s) as (t & Hc & Hok & Hr & Hs & Hlen).
    exists t. simpl. rewrite app_nil_r. by repeat split.
  - destruct (process_run data s)
      as (ev & t & Hc & Hev & Hr & Hu & Hs & Hok & Hnl & Hout & Hres & Hch).
    exists (ev :: t). repeat split; try done.
    + etrans; [exact Hs|]. unfold printed. change (ev :: t) with ([ev] ++ t).
      unfold responses in *. by rewrite omap_app, Hres.
    + unfold mutations in *. simpl. by rewrite Hev.
Qed.

(** *** [createKey.process] never looks at its argument *)

Lemma create_if_new_ignores_resource {R R'} (x : R') arr alias (s : state R) :
  createKey.create_if_new arr alias (with_resource x s)
  = ((createKey.create_if_new arr alias s).1,
     with_resource x (createKey.create_if_new arr alias s).2).
Proof.
  rewrite !create_if_new_run. simpl.
  destruct (to_key alias) as [k|]; [|done].
  destruct (bool_decide (k ∈ arr)); [done|].
  by destruct (client_mutate (cloud s) _) as [[e|r] c'].
Qed.

Lemma loop_ignores_resource {R R'} (x : R') arr aliases (s : state R) :
  for_in aliases tt (λ alias _, createKey.create_if_new arr alias) (with_resource x s)
  = ((for_in aliases tt (λ alias _, createKey.create_if_new arr alias) s).1,
     with_resource x
       (for_in aliases tt (λ alias _, createKey.create_if_new arr alias) s).2).
Proof.
  revert s. induction aliases as [|alias aliases IH]; intros s; [done|].
  cbn [for_in]. unfold bind. rewrite create_if_new_ignores_resource.
  destruct (createKey.create_if_new arr alias s) as [[[]|e] s1]; [|done].
  apply IH.
Qed.

Lemma process_ignores_resources data (x : list pydict) (s : state (list pydict)) :
  createKey.process data (with_resource x s)
  = ((createKey.process data s).1,
     with_resource x (createKey.process data s).2).
Proof.
  rewrite !process_unfold. simpl.
  destruct (client_list_keys (cloud s) list_body) as [[e|resp] c']; [done|].
  destruct (key_details resp) as [details|]; [|done].
  destruct (collect _ details) as [arr|]; [|done].
  destruct (py_iter _) as [aliases|]; [|done].
  change (after_list (with_resource x s) (Listed resp) c')
    with (with_resource x (after_list s (Listed resp) c')).
  rewrite loop_ignores_resource.
  by destruct (for_in aliases _ _ _) as [[[]|e] s2].
Qed.

(** *** Which aliases [createKey.process] creates *)

Lemma fresh_is_new details arr alias :
  collect {[ KStr "default" ]} details = Some arr →
  hashable alias = true →
  fresh arr alias = is_new details alias.
Proof.
  intros Hc Hh. destruct (hashable_to_key _ Hh) as [k Hk].
  unfold fresh, is_new. rewrite Hk.
  apply Bool.eq_iff_eq_true.
  rewrite bool_decide_eq_true, andb_true_iff, !negb_true_iff.
  rewrite (collect_elem _ _ _ k Hc), <- !not_true_iff_false.
  rewrite <- py_eq_str. unfold py_eq. rewrite bool_decide_eq_true, Hk.
  rewrite existsb_exists. set_unfold. split.
  - intros Hn. split.
    + intros [= ->]. auto.
    + intros (d & Hd & Heq). apply Hn. right. exists d.
      split; [by apply list_elem_of_In|].
      unfold py_equal in Heq. rewrite Hk in Heq.
      destruct (to_key (kd_key_alias d)) as [k'|]; [|done].
      apply bool_decide_eq_true in Heq. by subst.
  - intros [Hd Hex] [->|(d & Hin & Hkd)]; [done|].
    apply Hex. exists d. split; [by apply list_elem_of_In|].
    unfold py_equal. rewrite Hk, Hkd. by apply bool_decide_eq_true.
Qed.

Lemma collect_hashable details arr :
  Forall (λ d, hashable (kd_key_alias d) = true) details →
  is_Some (collect arr details).
Proof.
  intros Hall. revert arr.
  induction Hall as [|d details Hd _ IH]; intros arr; simpl; [eauto|].
  destruct (hashable_to_key _ Hd) as [k ->]. apply IH.
Qed.

Lemma expected_is_new details arr aliases :
  collect {[ KStr "default" ]} details = Some arr →
  Forall (λ a, hashable a = true) aliases →
  expected arr aliases = create_request <$> List.filter (is_new details) aliases.
Proof.
  intros Hc Hall. unfold expected. fold create_request. f_equal.
  induction Hall as [|a aliases Ha _ IH]; [done|].
  cbn [List.filter]. by rewrite (fresh_is_new _ _ _ Hc Ha), IH.
Qed.

Lemma process_requests data s resp c1 details aliases :
  client_list_keys (cloud s) list_body = (inr resp, c1) →
  key_details resp = Some details →
  py_iter (key_aliases_of data) = Some aliases →
  Forall (λ a, hashable a = true) aliases →
  ∃ t, calls (createKey.process data s).2
       = calls s ++ {| ev_call := list_keys list_body;
                       ev_result := Listed resp |} :: t
       ∧ Forall (λ ev, is_list_call ev = false) t
       ∧ mutations t `prefix_of` create_request <$> List.filter (is_new details) aliases
       ∧ (raised (createKey.process data s).1 = None →
          mutations t = create_request <$> List.filter (is_new details) aliases)
       ∧ (client_never_raises →
          Forall (λ d, hashable (kd_key_alias d) = true) details →
          (createKey.process data s).1 = Ret PyNone).
Proof.
  intros Hlist Hdet Hiter Hall.
  rewrite process_unfold, Hlist. cbv zeta. rewrite Hdet.
  destruct (collect _ details) as [arr|] eqn:Hc; cycle 1.
  { exists []. simpl. repeat split; try done.
    - apply prefix_nil.
    - intros _ Hd. destruct (collect_hashable details {[ KStr "default" ]} Hd).
      congruence. }
  rewrite Hiter, <- (expected_is_new _ _ _ Hc Hall).
  destruct (loop_run arr aliases (after_list s (Listed resp) c1))
    as (t & Hcalls & _ & _ & _ & _ & Hnl & Hp & Hfull & Htot).
  exists t.
  destruct (for_in aliases _ _ _) as [[[]|e] s2]; cbn [fst snd] in *;
    (split; [rewrite Hcalls; simpl; by rewrite <- app_assoc|]);
    repeat split; try done; auto.
  intros Hnr _. by specialize (Htot Hnr Hall).
Qed.

End Steps.

(** ** Sample runs *)

(** A [keystore_id] held as the string ["0"] is unequal to the integer
    [0], so such a key is not eligible and the rotation actions return
    0 for it. *)
Example keystore_id_string_blocked :
  let r := <[ "keystore_id" := VStr "0" ]> plain_key in
  eligible r = false
  ∧ rotationKey.perform_action (start (K := scripted [] None) r 0%nat)
    = (Ret (PyInt 0), start (K := scripted [] None) r 0%nat).
Proof. split; vm_compute; reflexivity. Qed.

Example enable_key_rotation_sends :
  (rotationKey.perform_action (start (K := scripted [] None) plain_key 0%nat)).1
  = Ret (PyResp (K := scripted [] None)
                 (enable_key_rotation {| key_id := VStr "k1"; sequence := "0" |})).
Proof. vm_compute; reflexivity. Qed.

Example enable_key_without_key_id :
  enableKey.perform_action (start (K := scripted [] None) ∅ 0%nat)
  = (Raise (KeyError "key_id"), start (K := scripted [] None) ∅ 0%nat).
Proof. vm_compute; reflexivity. Qed.

Example disable_key_client_raises :
  (disableKey.perform_action
     (start (K := scripted [] (Some 0%nat)) default_key 0%nat)).1
  = Raise (ClientExn (K := scripted [] (Some 0%nat)) "boom").
Proof. vm_compute; reflexivity. Qed.

Example create_key_skips_known :
  let data : pydict := {[ "key_aliases" := VList [VStr "a"; VStr "default"; VStr "c"] ]} in
  let r := createKey.process data (start (K := scripted [VStr "a"] None) [] 0%nat) in
  r.1 = Ret PyNone
  ∧ mutations (calls r.2) = [create_request (VStr "c")]
  ∧ stdout r.2 = [create_request (VStr "c")].
Proof. repeat split; vm_compute; reflexivity. Qed.

Example create_key_unset_key_details :
  let K := {| conn := unit; Resp := unit; Exc := unit;
              client_mutate := λ c _, (inr tt, c);
              client_list_keys := λ c _, (inr {| key_details := None |}, c);
              isinstance_Exception := λ _, true;
              uuid4_hex := λ _, "" |} in
  (createKey.process ∅ (start (K := K) [] tt)).1 = Raise TypeError.
Proof. vm_compute; reflexivity. Qed.

(** ** Claims *)

(** C1. [enable_key_rotation] issues its SDK request only for a resource
    that passes the eligibility checks (default flag not ["1"], key spec
    not in the unsupported set, keystore id equal to 0, key state one of
    ["2"], ["3"], ["4"]); for any other resource whose gate fields can
    be read it returns 0 and leaves everything, the call trace
    included, as it was. *)
Theorem enable_key_rotation_gated {K : host} (s : state pydict) :
  (calls (rotationKey.perform_action s).2 ≠ calls s →
   eligible (resource s) = true)
  ∧ (eligible (resource s) = false → gate_readable (resource s) = true →
     rotationKey.perform_action s = (Ret (PyInt 0), s)).
Proof.
  destruct (rotation_gate s)
    as [(out & -> & _ & _ & Hout & _)|(Hel & _ & _ & _)].
  - split; [done|]. intros _ Hread.
    destruct Hout as [->|Hnr]; [done | congruence].
  - split; [done | congruence].
Qed.

Lemma enable_key_rotation_gated_witness :
  eligible default_key = false
  ∧ gate_readable default_key = true
  ∧ rotationKey.perform_action (start (K := scripted [] None) default_key 0%nat)
    = (Ret (PyInt 0), start (K := scripted [] None) default_key 0%nat).
Proof.
  assert (He : eligible default_key = false) by (vm_compute; reflexivity).
  assert (Hr : gate_readable default_key = true) by (vm_compute; reflexivity).
  split; [exact He|]. split; [exact Hr|].
  exact (proj2 (enable_key_rotation_gated
                  (start (K := scripted [] None) default_key 0%nat)) He Hr).
Defined.

(** C2. Whatever the action, if a call to the SDK client raises, the
    action ends by raising that very exception, the failed call is the
    last one it makes, and nothing is printed for it or after it. *)
Theorem sdk_exception_reraised {K : host} (act : action) (s : state (arg act))
    (pre post : list event) (ev : event) (e : Exc) :
  calls (invoke act s).2 = calls s ++ pre ++ ev :: post →
  ev_result ev = Raised e →
  (invoke act s).1 = Raise (ClientExn e)
  ∧ post = []
  ∧ stdout (invoke act s).2 = stdout s ++ printed act pre.
Proof.
  intros Hcalls Hev.
  destruct (invoke_run act s) as (t & Hc & Hok & _ & Hs & _).
  rewrite Hc in Hcalls. apply app_inv_head in Hcalls. subst t.
  destruct (trace_ok_final _ _ _ _ _ _ Hok eq_refl Hev) as [-> Herr].
  split; [|split; [done|]].
  - destruct (invoke act s).1 as [v|e']; simpl in Herr; congruence.
  - rewrite Hs. f_equal. destruct act as [a|data]; [done|].
    unfold printed, responses. rewrite omap_app. simpl. rewrite Hev.
    by rewrite app_nil_r.
Qed.

Lemma sdk_exception_reraised_witness :
  let K := scripted [] (Some 1%nat) in
  let act := CreateKey {[ "key_aliases" := VList [VStr "a"; VStr "b"] ]} in
  let s : state (arg act) := start [plain_key] 0%nat in
  let listed := {| ev_call := list_keys list_body;
                   ev_result := Listed {| key_details := Some [] |} |} in
  let failed := {| ev_call := Mutate (create_request (VStr "a"));
                   ev_result := Raised "boom" |} in
  calls (invoke act s).2 = calls s ++ [listed] ++ failed :: []
  ∧ (invoke act s).1 = Raise (ClientExn "boom")
  ∧ stdout (invoke act s).2 = [].
Proof.
  intros K act s listed failed.
  assert (Hc : calls (invoke act s).2 = calls s ++ [listed] ++ failed :: [])
    by (vm_compute; reflexivity).
  split; [exact Hc|].
  destruct (sdk_exception_reraised act s [listed] [] failed "boom" Hc eq_refl)
    as (Hout & _ & Hstd).
  split; [exact Hout | exact Hstd].
Defined.

(** C3, as stated, fails: [enable_key] sends its request for a default
    key, which the eligibility checks reject. *)
Lemma not_every_action_gated :
  ¬ (∀ (K : host) (a : key_action), gated_by_eligibility a).
Proof.
  intros Hall.
  specialize (Hall (scripted [] None) EnableKey
                   (start (K := scripted [] None) default_key 0%nat)).
  vm_compute in Hall. specialize (Hall eq_refl). discriminate Hall.
Qed.

(** C3, amended. The eligibility checks gate [enable_key_rotation] and
    [disable_key_rotation] only, and on every resource the two decide
    alike: both stop before any call with the same result and state, or
    the resource is eligible and both send their request with the same
    body.  [enable_key] and [disable_key] check nothing: they go
    straight to their request.  [create-key] does not read the
    resources at all. *)
Theorem rotation_actions_share_gate {K : host} (s : state pydict) :
  rotation_verdict s (perform_action EnableKeyRotation s)
                     (perform_action DisableKeyRotation s)
  ∧ (eligible (resource s) = false →
     calls (perform_action EnableKeyRotation s).2 = calls s
     ∧ calls (perform_action DisableKeyRotation s).2 = calls s)
  ∧ perform_action EnableKey s = issue enable_key s
  ∧ perform_action DisableKey s = issue disable_key s
  ∧ (∀ data (x : list pydict),
       createKey.process data (with_resource x s)
       = ((createKey.process data (with_resource [] s)).1,
          with_resource x (createKey.process data (with_resource [] s)).2)).
Proof.
  split; [apply rotation_gate|]. split; [|split; [|split]].
  - intros Hne. simpl.
    destruct (rotation_gate s)
      as [(out & -> & -> & _)|(Hel & _)]; [done | congruence].
  - apply enableKey_run.
  - apply disableKey_run.
  - intros data x.
    apply (process_ignores_resources data x (with_resource [] s)).
Qed.

Lemma rotation_actions_share_gate_witness :
  let s := start (K := scripted [] None) default_key 0%nat in
  eligible (resource s) = false
  ∧ calls (perform_action EnableKeyRotation s).2 = calls s
  ∧ calls (perform_action DisableKeyRotation s).2 = calls s.
Proof.
  intros s.
  assert (He : eligible (resource s) = false) by (vm_compute; reflexivity).
  split; [exact He|].
  exact (proj1 (proj2 (rotation_actions_share_gate s)) He).
Defined.

(** C4, as stated, fails for [create-key]: its request carries the
    alias only, and [process] returns [None], not the response. *)
Lemma create_key_hands_back_nothing :
  ¬ (∀ (K : host) (act : action), hands_back_response act).
Proof.
  intros Hall.
  pose (K := scripted [] None).
  pose (act := CreateKey {[ "key_aliases" := VList [VStr "bbb"] ]}).
  pose (s := start (K := K) [plain_key] 0%nat : state (arg act)).
  pose (listed := {| ev_call := list_keys list_body;
                     ev_result := Listed {| key_details := Some [] |} |} : @event K).
  pose (created := {| ev_call := Mutate (create_request (VStr "bbb"));
                      ev_result := Returned (create_request (VStr "bbb") : @Resp K) |}).
  assert (Hc : calls (invoke act s).2 = calls s ++ [listed; created])
    by (vm_compute; reflexivity).
  destruct (Hall K act s [listed; created] (create_request (VStr "bbb"))
                 (create_request (VStr "bbb")) Hc) as [_ Hout].
  { apply list_elem_of_In. right. left. reflexivity. }
  vm_compute in Hout. discriminate Hout.
Qed.

(** C4, amended.  For a resource that has a [key_id] and, for the two
    rotation actions, passes the eligibility checks, each of the four
    [perform_action] actions builds its request body from the
    resource's [key_id] and a newly drawn identifier, sends that one
    request, and returns the client's response unchanged (or raises the
    client's exception).  [create-key] instead sends create requests
    that carry an alias of [key_aliases] and nothing else, draws no
    identifier, prints each response and returns [None]. *)
Theorem request_built_and_response_returned {K : host} :
  (∀ (a : key_action) (s : state pydict) (kid : value) (x : Exc + Resp) (c' : conn),
     (a = EnableKeyRotation ∨ a = DisableKeyRotation →
      eligible (resource s) = true ∧ gate_readable (resource s) = true) →
     resource s !! "key_id" = Some kid →
     let body := {| key_id := kid; sequence := uuid4_hex (uuid_drawn s) |} in
     client_mutate (cloud s) (request_of a body) = (x, c') →
     perform_action a s
     = (outcome_of x, after_issue s (request_of a body) (result_of x) c'))
  ∧ (∀ (data : pydict) (s : state (list pydict)) (t : list event),
       calls (createKey.process data s).2 = calls s ++ t →
       (∃ chosen, mutations t = create_request <$> chosen
                  ∧ chosen `sublist_of` default [] (py_iter (key_aliases_of data)))
       ∧ uuid_drawn (createKey.process data s).2 = uuid_drawn s
       ∧ stdout (createKey.process data s).2 = stdout s ++ responses t
       ∧ ((createKey.process data s).1 = Ret PyNone
          ∨ ∃ e, (createKey.process data s).1 = Raise e)).
Proof.
  split.
  - intros a s kid x c' Hgate Hkid body Hcall.
    assert (Hissue : ∀ mk, mk = request_of a →
              issue mk s = (outcome_of x, after_issue s (mk body) (result_of x) c')).
    { intros mk ->. unfold issue. rewrite Hkid. cbv zeta. fold body.
      by rewrite Hcall. }
    destruct a; simpl.
    + destruct (Hgate (or_introl eq_refl)) as [Hel Hread].
      destruct (rotation_gate s) as [(out & _ & _ & _ & _ & [?|?])|(_ & _ & -> & _)];
        [congruence.. | by apply Hissue].
    + destruct (Hgate (or_intror eq_refl)) as [Hel Hread].
      destruct (rotation_gate s) as [(out & _ & _ & _ & _ & [?|?])|(_ & _ & _ & ->)];
        [congruence.. | by apply Hissue].
    + rewrite enableKey_run. by apply Hissue.
    + rewrite disableKey_run. by apply Hissue.
  - intros data s t Hcalls.
    destruct (process_run data s)
      as (ev & t' & Hc & Hev & _ & Hu & Hs & _ & _ & Hout & Hres & Hch).
    rewrite Hc in Hcalls. apply app_inv_head in Hcalls. subst t.
    repeat split; try done.
    + unfold mutations in *. simpl. by rewrite Hev.
    + rewrite Hs. change (ev :: t') with ([ev] ++ t').
      unfold responses in *. by rewrite omap_app, Hres.
Qed.

Lemma request_built_and_response_returned_witness :
  let K := scripted [] None in
  let s := start (K := K) plain_key 0%nat in
  let body := {| key_id := VStr "k1"; sequence := "0" |} in
  eligible (resource s) = true ∧ gate_readable (resource s) = true
  ∧ resource s !! "key_id" = Some (VStr "k1")
  ∧ perform_action EnableKeyRotation s
    = (Ret (PyResp (enable_key_rotation body)),
       after_issue s (enable_key_rotation body)
                   (Returned (enable_key_rotation body)) 1%nat).
Proof.
  intros K s body.
  assert (He : eligible (resource s) = true) by (vm_compute; reflexivity).
  assert (Hr : gate_readable (resource s) = true) by (vm_compute; reflexivity).
  assert (Hk : resource s !! "key_id" = Some (VStr "k1")) by (vm_compute; reflexivity).
  split; [exact He|]. split; [exact Hr|]. split; [exact Hk|].
  exact (proj1 request_built_and_response_returned EnableKeyRotation s
           (VStr "k1") (inr (enable_key_rotation body)) 1%nat
           (λ _, conj He Hr) Hk eq_refl).
Defined.

(** C5. Every invocation of [create-key] makes exactly one [list_keys]
    call, the first call of the run, with body [key_spec="ALL"],
    [limit="1000"]; no later call is a list call, whatever the response
    held, and the calls made do not depend on the resources passed. *)
Theorem single_list_call {K : host} (data : pydict) (s : state (list pydict)) :
  (∃ ev t,
     calls (createKey.process data s).2 = calls s ++ ev :: t
     ∧ ev_call ev = list_keys {| key_spec := "ALL"; limit := "1000" |}
     ∧ Forall (λ ev', is_list_call ev' = false) t)
  ∧ (∀ x : list pydict,
       calls (createKey.process data (with_resource x s)).2
       = calls (createKey.process data s).2).
Proof.
  split.
  - destruct (process_run data s) as (ev & t & Hc & Hev & _ & _ & _ & _ & Hnl & _).
    by exists ev, t.
  - intros x. by rewrite process_ignores_resources.
Qed.

(** C6. Importing the module registers the resource type [kms], adds to
    the action registry of [Kms] exactly the names
    [enable_key_rotation], [disable_key_rotation], [enable_key],
    [disable_key] and [create-key], the last with the parameters
    [key_aliases] (an array) and [obs_url] (a string), and adds to its
    filter registry exactly the name [all_keys_disable]. *)
Theorem registered_surface (g : registries) :
  resources (import_module g) !! "kms" = Some Kms_resource_type
  ∧ dom (Kms_action_registry (import_module g))
    = dom (Kms_action_registry g)
      ∪ {[ "enable_key_rotation"; "disable_key_rotation"; "enable_key";
           "disable_key"; "create-key" ]}
  ∧ properties <$> Kms_action_registry (import_module g) !! "create-key"
    = Some [("key_aliases", "array"); ("obs_url", "string")]
  ∧ (∀ name, name ∈ ["enable_key_rotation"; "disable_key_rotation";
                      "enable_key"; "disable_key"; "create-key"] →
       type_name <$> Kms_action_registry (import_module g) !! name = Some name)
  ∧ dom (Kms_filter_registry (import_module g))
    = dom (Kms_filter_registry g) ∪ {[ "all_keys_disable" ]}
  ∧ type_name <$> Kms_filter_registry (import_module g) !! "all_keys_disable"
    = Some "all_keys_disable".
Proof.
  unfold import_module, register_resource, register_action, register_filter.
  cbn [resources Kms_action_registry Kms_filter_registry].
  repeat split.
  - by rewrite lookup_insert_eq.
  - rewrite !dom_insert_L. apply set_eq. intros x. set_unfold. tauto.
  - by rewrite lookup_insert_eq.
  - intros name Hname. set_unfold.
    destruct_or!; subst name; try done;
      repeat (rewrite lookup_insert_ne by done); by rewrite lookup_insert_eq.
  - rewrite dom_insert_L. apply set_eq. intros x. set_unfold. tauto.
  - by rewrite lookup_insert_eq.
Qed.

Lemma registered_surface_witness :
  "create-key" ∈ ["enable_key_rotation"; "disable_key_rotation";
                  "enable_key"; "disable_key"; "create-key"]
  ∧ type_name <$> Kms_action_registry
                    (import_module {| resources := ∅;
                                      Kms_action_registry := ∅;
                                      Kms_filter_registry := ∅ |}) !! "create-key"
    = Some "create-key".
Proof.
  assert (Hin : "create-key" ∈ ["enable_key_rotation"; "disable_key_rotation";
                                "enable_key"; "disable_key"; "create-key"]).
  { apply list_elem_of_In. simpl. tauto. }
  split; [exact Hin|].
  exact (proj1 (proj2 (proj2 (proj2
           (registered_surface {| resources := ∅; Kms_action_registry := ∅;
                                  Kms_filter_registry := ∅ |})))) _ Hin).
Defined.

(** C7, as stated, fails for [create-key]: an alias written twice in
    [key_aliases] is created twice in one invocation. *)
Lemma create_key_repeats_request :
  ¬ (∀ (K : host) (act : action), never_repeats act).
Proof.
  intros Hall.
  pose (K := scripted [] None).
  pose (act := CreateKey {[ "key_aliases" := VList [VStr "a"; VStr "a"] ]}).
  pose (s := start (K := K) [plain_key] 0%nat : state (arg act)).
  pose (listed := {| ev_call := list_keys list_body;
                     ev_result := Listed {| key_details := Some [] |} |} : @event K).
  pose (created := {| ev_call := Mutate (create_request (VStr "a"));
                      ev_result := Returned (create_request (VStr "a") : @Resp K) |}).
  assert (Hc : calls (invoke act s).2 = calls s ++ [listed; created; created])
    by (vm_compute; reflexivity).
  specialize (Hall K act s _ Hc). simpl in Hall.
  apply NoDup_cons in Hall as [Hnin _]. apply Hnin. by left.
Qed.

(** C7, amended.  Each of the four [perform_action] actions makes at
    most one SDK call per resource and invocation.  [create-key] sends
    at most one create request per element of [key_aliases], in list
    order.  For all five, a call that raised is the last call of the
    run: nothing is sent again after an exception. *)
Theorem no_request_reissued {K : host} (act : action) (s : state (arg act))
    (t : list event) :
  calls (invoke act s).2 = calls s ++ t →
  match act with
  | KeyAction _ => (length t ≤ 1)%nat
  | CreateKey data =>
      ∃ chosen, mutations t = create_request <$> chosen
                ∧ chosen `sublist_of` default [] (py_iter (key_aliases_of data))
  end
  ∧ (∀ pre ev post e,
       t = pre ++ ev :: post → ev_result ev = Raised e → post = []).
Proof.
  intros Hcalls.
  destruct (invoke_run act s) as (t' & Hc & Hok & _ & _ & Hshape).
  rewrite Hc in Hcalls. apply app_inv_head in Hcalls. subst t'.
  split; [exact Hshape|].
  intros pre ev post e Ht Hev.
  by destruct (trace_ok_final _ _ _ _ _ _ Hok Ht Hev).
Qed.

Lemma no_request_reissued_witness :
  let K := scripted [] (Some 0%nat) in
  let act := KeyAction DisableKey in
  let s : state (arg act) := start (K := K) plain_key 0%nat in
  let failed := {| ev_call := Mutate (disable_key {| key_id := VStr "k1";
                                                      sequence := "0" |});
                   ev_result := Raised "boom" |} in
  calls (invoke act s).2 = calls s ++ [failed]
  ∧ (length [failed] ≤ 1)%nat.
Proof.
  intros K act s failed.
  assert (Hc : calls (invoke act s).2 = calls s ++ [failed])
    by (vm_compute; reflexivity).
  split; [exact Hc|].
  exact (proj1 (no_request_reissued act s [failed] Hc)).
Defined.

(** C8. After a successful list call, [create-key] goes through
    [key_aliases] in list order and sends one create request for each
    element that is neither ["default"] nor an alias of the list-keys
    response, skipping the others: the create requests sent are always
    an initial part of that list, the whole of it when the run returns,
    and the run does return when the client never raises.  Created
    aliases are not remembered, so a new alias written twice is
    requested twice. *)
Theorem create_key_requests {K : host} (data : pydict) (s : state (list pydict))
    (resp : ListKeysResponse) (c1 : conn) (details : list KeyDetails)
    (aliases : list value) :
  client_list_keys (cloud s) {| key_spec := "ALL"; limit := "1000" |} = (inr resp, c1) →
  key_details resp = Some details →
  py_iter (key_aliases_of data) = Some aliases →
  Forall (λ a, hashable a = true) aliases →
  ∃ t, calls (createKey.process data s).2
       = calls s ++ {| ev_call := list_keys {| key_spec := "ALL"; limit := "1000" |};
                       ev_result := Listed resp |} :: t
       ∧ Forall (λ ev, is_list_call ev = false) t
       ∧ mutations t `prefix_of` create_request <$> List.filter (is_new details) aliases
       ∧ (raised (createKey.process data s).1 = None →
          mutations t = create_request <$> List.filter (is_new details) aliases)
       ∧ (client_never_raises →
          Forall (λ d, hashable (kd_key_alias d) = true) details →
          (createKey.process data s).1 = Ret PyNone
          ∧ mutations t = create_request <$> List.filter (is_new details) aliases).
Proof.
  intros Hlist Hdet Hiter Hall.
  destruct (process_requests data s resp c1 details aliases Hlist Hdet Hiter Hall)
    as (t & Hc & Hnl & Hp & Hfull & Htot).
  exists t. repeat split; try done.
  - by apply Htot.
  - apply Hfull. by rewrite Htot.
Qed.

Lemma scripted_never_raises known : @client_never_raises (scripted known None).
Proof. intros c m. by exists m, (S c). Qed.

Lemma create_key_requests_witness :
  let K := scripted [VStr "a"] None in
  let data : pydict :=
    {[ "key_aliases" := VList [VStr "a"; VStr "b"; VStr "default"; VStr "b"] ]} in
  let s := start (K := K) [plain_key] 0%nat in
  py_iter (key_aliases_of data)
  = Some [VStr "a"; VStr "b"; VStr "default"; VStr "b"]
  ∧ ∃ t, calls (createKey.process data s).2
         = calls s ++ {| ev_call := list_keys {| key_spec := "ALL"; limit := "1000" |};
                         ev_result := Listed {| key_details :=
                                                  Some [Build_KeyDetails (VStr "a")] |} |} :: t
         ∧ mutations t = [create_request (VStr "b"); create_request (VStr "b")].
Proof.
  intros K data s.
  assert (Hiter : py_iter (key_aliases_of data)
                  = Some [VStr "a"; VStr "b"; VStr "default"; VStr "b"])
    by (vm_compute; reflexivity).
  split; [exact Hiter|].
  destruct (create_key_requests data s
              {| key_details := Some [Build_KeyDetails (VStr "a")] |} 1%nat
              [Build_KeyDetails (VStr "a")]
              [VStr "a"; VStr "b"; VStr "default"; VStr "b"]
              eq_refl eq_refl Hiter)
    as (t & Hc & _ & _ & _ & Htot).
  { repeat constructor. }
  exists t. split; [exact Hc|].
  destruct Htot as [_ ->];
    [apply scripted_never_raises | repeat constructor | reflexivity].
Defined.

(** C9. [create-key] never reads [obs_url]: two policy entries that
    agree on every key but [obs_url] (present or not in either) give the
    same run, that is the same calls, prints, result and final state. *)
Theorem obs_url_never_read {K : host} (d1 d2 : pydict) (s : state (list pydict)) :
  (∀ k, k ≠ "obs_url" → d1 !! k = d2 !! k) →
  createKey.process d1 s = createKey.process d2 s.
Proof.
  intros Hagree. unfold createKey.process.
  by rewrite (Hagree "key_aliases").
Qed.

Lemma obs_url_never_read_witness :
  let K := scripted [] None in
  let d1 : pydict := {[ "key_aliases" := VList [VStr "bbb"] ]} in
  let d2 : pydict := <[ "obs_url" := VStr "https://bucket.example/keys" ]> d1 in
  (∀ k, k ≠ "obs_url" → d1 !! k = d2 !! k)
  ∧ createKey.process d1 (start (K := K) [] 0%nat)
    = createKey.process d2 (start (K := K) [] 0%nat).
Proof.
  intros K d1 d2.
  assert (Hagree : ∀ k, k ≠ "obs_url" → d1 !! k = d2 !! k).
  { intros k Hk. unfold d2. by rewrite lookup_insert_ne. }
  split; [exact Hagree|].
  exact (obs_url_never_read d1 d2 (start (K := K) [] 0%nat) Hagree).
Defined.

(** C10. No action changes the object bound to its [resource]
    parameter: after any run, be it a normal return, a return of 0 from
    an eligibility check or an exception, the resource dict (for
    [create-key], the list of resource dicts) is what it was. *)
Theorem resource_never_mutated {K : host} (act : action) (s : state (arg act)) :
  resource (invoke act s).2 = resource s.
Proof. by destruct (invoke_run act s) as (t & _ & _ & Hr & _). Qed.


(** ** Further properties *)

Section Further.
Context {K : host}.

(** Walks through the four inline checks of a rotation action, with
    [gate_result] unfolded beside it. *)
Ltac walk_gate s :=
  unfold gate_result; cbv zeta;
  let flag := fresh "flag" in let Hflag := fresh "Hflag" in
  destruct (resource s !! "default_key_flag") as [flag|] eqn:Hflag;
    [|by rewrite (bind_getitem_None _ _ _ Hflag)];
  rewrite (bind_getitem_Some _ _ _ _ Hflag), py_eq_str;
  destruct (is_str flag "1"); [done|];
  let spec := fresh "spec" in let Hspec := fresh "Hspec" in
  destruct (resource s !! "key_spec") as [spec|] eqn:Hspec;
    [|by rewrite (bind_getitem_None _ _ _ Hspec)];
  rewrite (bind_getitem_Some _ _ _ _ Hspec);
  let Hhspec := fresh "Hhspec" in
  destruct (hashable spec) eqn:Hhspec;
    [|by rewrite (bind_py_in_None _ _ _ _ (unhashable_to_key _ Hhspec))];
  let kspec := fresh "kspec" in let Hkspec := fresh "Hkspec" in
  destruct (hashable_to_key _ Hhspec) as [kspec Hkspec];
  rewrite (bind_py_in_Some _ _ _ _ _ Hkspec), (in_notSupportList _ _ Hkspec);
  cbn [negb]; destruct (existsb (is_str spec) unsupported_key_specs); [done|];
  let store := fresh "store" in let Hstore := fresh "Hstore" in
  destruct (resource s !! "keystore_id") as [store|] eqn:Hstore;
    [|by rewrite (bind_getitem_None _ _ _ Hstore)];
  rewrite (bind_getitem_Some _ _ _ _ Hstore), py_eq_zero;
  destruct (equals_zero store); [|done]; cbn [negb];
  let st := fresh "st" in let Hst := fresh "Hst" in
  destruct (resource s !! "key_state") as [st|] eqn:Hst;
    [|by rewrite (bind_getitem_None _ _ _ Hst)];
  rewrite (bind_getitem_Some _ _ _ _ Hst);
  let Hhst := fresh "Hhst" in
  destruct (hashable st) eqn:Hhst;
    [|by rewrite (bind_py_in_None _ _ _ _ (unhashable_to_key _ Hhst))];
  let kst := fresh "kst" in let Hkst := fresh "Hkst" in
  destruct (hashable_to_key _ Hhst) as [kst Hkst];
  rewrite (bind_py_in_Some _ _ _ _ _ Hkst), (in_live_states _ _ Hkst);
  cbn [negb]; destruct (existsb (is_str st) ["2"; "3"; "4"]); [|done];
  cbn [negb]; apply issue_tail.

(** Each [perform_action] as its checks followed by the shared tail. *)
Lemma perform_action_eq a s :
  perform_action a s
  = match (if is_rotation a then gate_result (resource s) else None) with
    | Some out => (out, s)
    | None => issue (request_of a) s
    end.
Proof.
  destruct a; simpl.
  - unfold rotationKey.perform_action. walk_gate s.
  - unfold disableRotationKey.perform_action. walk_gate s.
  - apply enableKey_run.
  - apply disableKey_run.
Qed.

Lemma gate_result_outcomes r out :
  gate_result r = Some out →
  out = Ret (PyInt 0)
  ∨ (∃ k, k ∈ gate_fields ∧ r !! k = None ∧ out = Raise (KeyError k))
  ∨ (out = Raise TypeError
     ∧ ∃ k v, k ∈ ["key_spec"; "key_state"] ∧ r !! k = Some v
              ∧ hashable v = false).
Proof.
  unfold gate_result, gate_fields.
  destruct (r !! "default_key_flag") as [flag|] eqn:Hflag; cycle 1.
  { intros [= <-]. right. left. exists "default_key_flag".
    split; [|done]. set_unfold. tauto. }
  destruct (is_str flag "1"); [intros [= <-]; by left|].
  destruct (r !! "key_spec") as [spec|] eqn:Hspec; cycle 1.
  { intros [= <-]. right. left. exists "key_spec".
    split; [|done]. set_unfold. tauto. }
  destruct (hashable spec) eqn:Hhspec; cbn [negb]; cycle 1.
  { intros [= <-]. right. right. split; [done|]. exists "key_spec", spec.
    split; [|done]. set_unfold. tauto. }
  destruct (existsb (is_str spec) _); [intros [= <-]; by left|].
  destruct (r !! "keystore_id") as [store|] eqn:Hstore; cycle 1.
  { intros [= <-]. right. left. exists "keystore_id".
    split; [|done]. set_unfold. tauto. }
  destruct (equals_zero store); cbn [negb]; [|intros [= <-]; by left].
  destruct (r !! "key_state") as [st|] eqn:Hst; cycle 1.
  { intros [= <-]. right. left. exists "key_state".
    split; [|done]. set_unfold. tauto. }
  destruct (hashable st) eqn:Hhst; cbn [negb]; cycle 1.
  { intros [= <-]. right. right. split; [done|]. exists "key_state", st.
    split; [|done]. set_unfold. tauto. }
  destruct (existsb (is_str st) _); [done | intros [= <-]; by left].
Qed.

Lemma gate_result_agree r1 r2 :
  agree_on gate_fields r1 r2 → gate_result r1 = gate_result r2.
Proof.
  intros Hagree. unfold gate_result.
  rewrite !(Hagree "default_key_flag"), !(Hagree "key_spec"),
    !(Hagree "keystore_id"), !(Hagree "key_state");
    first [done | unfold gate_fields; set_unfold; tauto].
Qed.

Lemma issue_agree mk (s : state pydict) (r2 : pydict) :
  resource s !! "key_id" = r2 !! "key_id" →
  issue mk (with_resource r2 s)
  = ((issue mk s).1, with_resource r2 (issue mk s).2).
Proof.
  intros Hkid. unfold issue. simpl. rewrite <- Hkid.
  destruct (resource s !! "key_id") as [kid|]; [|done].
  cbv zeta. by destruct (client_mutate (cloud s) _) as [x c'].
Qed.

(** A run of the shared tail either stops at the missing [key_id] or
    makes one call, with the identifier drawn for it. *)
Lemma issue_cases mk s :
  (resource s !! "key_id" = None ∧ issue mk s = (Raise (KeyError "key_id"), s))
  ∨ (∃ kid x c',
       resource s !! "key_id" = Some kid
       ∧ issue mk s
         = (outcome_of x,
            after_issue s (mk {| key_id := kid;
                                 sequence := uuid4_hex (uuid_drawn s) |})
                        (result_of x) c')).
Proof.
  unfold issue. destruct (resource s !! "key_id") as [kid|]; [|by left].
  right. cbv zeta. destruct (client_mutate (cloud s) _) as [x c'].
  by exists kid, x, c'.
Qed.

(** A [perform_action] either leaves the state as it was or makes one
    call with the identifier drawn for it. *)
Lemma perform_action_step a s :
  (perform_action a s).2 = s
  ∨ ∃ kid res c',
      resource s !! "key_id" = Some kid
      ∧ (perform_action a s).2
        = {| resource := resource s; cloud := c';
             uuid_drawn := S (uuid_drawn s);
             calls := calls s
                      ++ [ {| ev_call :=
                                Mutate (request_of a
                                          {| key_id := kid;
                                             sequence := uuid4_hex (uuid_drawn s) |});
                              ev_result := res |} ];
             stdout := stdout s |}.
Proof.
  rewrite perform_action_eq.
  destruct (if is_rotation a then gate_result (resource s) else None);
    [by left|].
  destruct (issue_cases (request_of a) s) as [[_ ->]|(kid & x & c' & Hkid & ->)];
    [by left|].
  right. by exists kid, (result_of x), c'.
Qed.

Lemma hex_tag_length n : String.length (hex_tag n) = n.
Proof. induction n as [|n IH]; simpl; [done | by rewrite IH]. Qed.

Lemma hex_tag_inj n m : hex_tag n = hex_tag m → n = m.
Proof. intros H. by rewrite <- (hex_tag_length n), H, hex_tag_length. Qed.

End Further.

(** X1. [disable_key_rotation] is gated like [enable_key_rotation]: it
    calls the client only for an eligible resource, and for an
    ineligible one whose gate fields can be read it returns 0 and
    leaves the state as it was. *)
Theorem disable_key_rotation_gated {K : host} (s : state pydict) :
  (calls (disableRotationKey.perform_action s).2 ≠ calls s →
   eligible (resource s) = true)
  ∧ (eligible (resource s) = false → gate_readable (resource s) = true →
     disableRotationKey.perform_action s = (Ret (PyInt 0), s)).
Proof.
  destruct (rotation_gate s)
    as [(out & _ & -> & _ & Hout & _)|(Hel & _ & _ & _)].
  - split; [done|]. intros _ Hread.
    destruct Hout as [->|Hnr]; [done | congruence].
  - split; [done | congruence].
Qed.

Lemma disable_key_rotation_gated_witness :
  let r := <[ "key_spec" := VStr "RSA_2048" ]> plain_key in
  eligible r = false
  ∧ gate_readable r = true
  ∧ disableRotationKey.perform_action (start (K := scripted [] None) r 0%nat)
    = (Ret (PyInt 0), start (K := scripted [] None) r 0%nat).
Proof.
  intros r.
  assert (He : eligible r = false) by (vm_compute; reflexivity).
  assert (Hr : gate_readable r = true) by (vm_compute; reflexivity).
  split; [exact He|]. split; [exact Hr|].
  exact (proj2 (disable_key_rotation_gated
                  (start (K := scripted [] None) r 0%nat)) He Hr).
Defined.

(** X2. The default-key check comes first and short-circuits: a
    rotation action returns 0 for a resource whose [default_key_flag] is
    ["1"] without reading any other field, so even when the others are
    missing. *)
Theorem default_key_short_circuits {K : host} (a : key_action) (s : state pydict) :
  is_rotation a = true →
  resource s !! "default_key_flag" = Some (VStr "1") →
  perform_action a s = (Ret (PyInt 0), s).
Proof.
  intros Hrot Hflag. rewrite perform_action_eq, Hrot.
  unfold gate_result. by rewrite Hflag.
Qed.

Lemma default_key_short_circuits_witness :
  let s := start (K := scripted [] None) {[ "default_key_flag" := VStr "1" ]} 0%nat in
  is_rotation DisableKeyRotation = true
  ∧ resource s !! "default_key_flag" = Some (VStr "1")
  ∧ perform_action DisableKeyRotation s = (Ret (PyInt 0), s).
Proof.
  intros s.
  assert (Hf : resource s !! "default_key_flag" = Some (VStr "1"))
    by (vm_compute; reflexivity).
  split; [reflexivity|]. split; [exact Hf|].
  exact (default_key_short_circuits DisableKeyRotation s eq_refl Hf).
Defined.





(** X5. A [perform_action] depends on the resource only through the
    fields it reads ([key_id] alone for [enable_key] and [disable_key],
    the four gate fields and [key_id] for the rotation actions): on two
    resources that agree on them it gives the same result, calls and
    final state. *)
Theorem action_reads_only_its_fields {K : host} (a : key_action)
    (s : state pydict) (r2 : pydict) :
  agree_on (fields_read a) (resource s) r2 →
  perform_action a (with_resource r2 s)
  = ((perform_action a s).1, with_resource r2 (perform_action a s).2).
Proof.
  intros Hagree. rewrite !perform_action_eq. simpl resource.
  assert (Hkid : resource s !! "key_id" = r2 !! "key_id").
  { apply Hagree. unfold fields_read. destruct (is_rotation a);
      unfold gate_fields; set_unfold; tauto. }
  unfold fields_read in Hagree.
  destruct (is_rotation a); [|by apply issue_agree].
  rewrite <- (gate_result_agree (resource s) r2).
  - destruct (gate_result (resource s)); [done | by apply issue_agree].
  - intros k Hk. apply Hagree. apply elem_of_app. by left.
Qed.

Lemma action_reads_only_its_fields_witness :
  let s := start (K := scripted [] None) plain_key 0%nat in
  let r2 := <[ "key_state" := VStr "5" ]> (<[ "key_spec" := VStr "RSA_2048" ]> plain_key) in
  agree_on (fields_read EnableKey) (resource s) r2
  ∧ perform_action EnableKey (with_resource r2 s)
    = ((perform_action EnableKey s).1, with_resource r2 (perform_action EnableKey s).2).
Proof.
  intros s r2.
  assert (Hagree : agree_on (fields_read EnableKey) (resource s) r2).
  { intros k Hk. apply list_elem_of_In in Hk. simpl in Hk.
    destruct Hk as [<-|[]]. vm_compute. reflexivity. }
  split; [exact Hagree|].
  exact (action_reads_only_its_fields EnableKey s r2 Hagree).
Defined.

(** X6. The keystore check compares with the integer [0]: a resource
    whose [keystore_id] is a string (["0"] included) never gets a
    rotation request; the action ends with the state as it was. *)
Theorem string_keystore_never_rotated {K : host} (a : key_action)
    (s : state pydict) (x : string) :
  is_rotation a = true →
  resource s !! "keystore_id" = Some (VStr x) →
  (perform_action a s).2 = s ∧ local_outcome (perform_action a s).1.
Proof.
  intros Hrot Hstore. rewrite perform_action_eq, Hrot.
  destruct (gate_result (resource s)) as [out|] eqn:Hg.
  - split; [done|]. simpl. intros e ->.
    destruct (gate_result_outcomes _ _ Hg) as [?|[(? & _ & _ & ?)|[? _]]]; done.
  - exfalso. revert Hg. unfold gate_result. rewrite Hstore.
    repeat case_match; done.
Qed.

Lemma string_keystore_never_rotated_witness :
  let s := start (K := scripted [] None)
                 (<[ "keystore_id" := VStr "0" ]> plain_key) 0%nat in
  is_rotation EnableKeyRotation = true
  ∧ resource s !! "keystore_id" = Some (VStr "0")
  ∧ (perform_action EnableKeyRotation s).2 = s.
Proof.
  intros s.
  assert (Hs : resource s !! "keystore_id" = Some (VStr "0"))
    by (vm_compute; reflexivity).
  split; [reflexivity|]. split; [exact Hs|].
  exact (proj1 (string_keystore_never_rotated EnableKeyRotation s "0" eq_refl Hs)).
Defined.

(** X7. The state check compares with the strings ["2"], ["3"], ["4"]:
    a resource whose [key_state] is not a string (the integer 2, say)
    never gets a rotation request. *)
Theorem non_string_state_never_rotated {K : host} (a : key_action)
    (s : state pydict) (v : value) :
  is_rotation a = true →
  resource s !! "key_state" = Some v →
  (∀ x, v ≠ VStr x) →
  calls (perform_action a s).2 = calls s.
Proof.
  intros Hrot Hst Hv. rewrite perform_action_eq, Hrot.
  destruct (gate_result (resource s)) as [out|] eqn:Hg; [done|].
  exfalso. revert Hg. unfold gate_result. rewrite Hst.
  assert (Hno : existsb (is_str v) ["2"; "3"; "4"] = false).
  { destruct v as [|b|z|t|l]; try done. by destruct (Hv t). }
  rewrite Hno. repeat case_match; done.
Qed.

Lemma non_string_state_never_rotated_witness :
  let s := start (K := scripted [] None)
                 (<[ "key_state" := VInt 2 ]> plain_key) 0%nat in
  is_rotation EnableKeyRotation = true
  ∧ resource s !! "key_state" = Some (VInt 2)
  ∧ (∀ x, VInt 2 ≠ VStr x)
  ∧ calls (perform_action EnableKeyRotation s).2 = calls s.
Proof.
  intros s.
  assert (Hs : resource s !! "key_state" = Some (VInt 2))
    by (vm_compute; reflexivity).
  assert (Hv : ∀ x, VInt 2 ≠ VStr x) by (intros x; discriminate).
  split; [reflexivity|]. split; [exact Hs|]. split; [exact Hv|].
  exact (non_string_state_never_rotated EnableKeyRotation s (VInt 2) eq_refl Hs Hv).
Defined.

(** X8. A [perform_action] either leaves the whole state as it was, or
    makes exactly one call, whose request carries the resource's
    [key_id] and the identifier drawn for it; only then is an
    identifier consumed, and nothing is ever printed. *)
Theorem identifier_drawn_only_with_request {K : host} (a : key_action)
    (s : state pydict) :
  (perform_action a s).2 = s
  ∨ ∃ kid res c',
      resource s !! "key_id" = Some kid
      ∧ (perform_action a s).2
        = {| resource := resource s; cloud := c';
             uuid_drawn := S (uuid_drawn s);
             calls := calls s
                      ++ [ {| ev_call :=
                                Mutate (request_of a
                                          {| key_id := kid;
                                             sequence := uuid4_hex (uuid_drawn s) |});
                              ev_result := res |} ];
             stdout := stdout s |}.
Proof. apply perform_action_step. Qed.

(** X9. Two requests sent one after the other carry different
    [sequence] values, provided the identifier source does not repeat
    itself: the second run draws anew. *)
Theorem successive_sequences_differ {K : host} (a b : key_action)
    (s : state pydict) (r2 : pydict)
    (body1 body2 : OperateKeyRequestBody) (res1 res2 : sdk_result) :
  (∀ n m, uuid4_hex n = uuid4_hex m → n = m) →
  calls (perform_action a s).2
  = calls s ++ [ {| ev_call := Mutate (request_of a body1); ev_result := res1 |} ] →
  calls (perform_action b (with_resource r2 (perform_action a s).2)).2
  = calls (perform_action a s).2
    ++ [ {| ev_call := Mutate (request_of b body2); ev_result := res2 |} ] →
  sequence body1 ≠ sequence body2.
Proof.
  intros Hinj H1 H2.
  assert (Hstep : ∀ (c : key_action) (s0 : state pydict) body res,
            calls (perform_action c s0).2
            = calls s0 ++ [ {| ev_call := Mutate (request_of c body);
                               ev_result := res |} ] →
            sequence body = uuid4_hex (uuid_drawn s0)
            ∧ uuid_drawn (perform_action c s0).2 = S (uuid_drawn s0)).
  { intros c s0 body res Hc.
    destruct (perform_action_step c s0)
      as [Hsame|(kid & res' & c' & _ & Hst)].
    - rewrite Hsame in Hc. rewrite <- (app_nil_r (calls s0)) in Hc at 1.
      by apply app_inv_head in Hc.
    - rewrite Hst in Hc |- *. simpl in Hc |- *.
      apply app_inv_head in Hc. injection Hc as Hreq _.
      split; [|done]. destruct c; by injection Hreq as <-. }
  destruct (Hstep _ _ _ _ H1) as [-> Hdrawn].
  destruct (Hstep _ _ _ _ H2) as [-> _]. simpl.
  rewrite Hdrawn. intros Heq. apply Hinj in Heq. lia.
Qed.

Lemma successive_sequences_differ_witness :
  let K := scripted_fresh [] None in
  let s := start (K := K) plain_key 0%nat in
  let body1 := {| key_id := VStr "k1"; sequence := "" |} in
  let body2 := {| key_id := VStr "k0"; sequence := "f" |} in
  (∀ n m, uuid4_hex n = uuid4_hex m → n = m)
  ∧ calls (perform_action EnableKey s).2
    = calls s ++ [ {| ev_call := Mutate (enable_key body1);
                      ev_result := Returned (enable_key body1) |} ]
  ∧ sequence body1 ≠ sequence body2.
Proof.
  intros K s body1 body2.
  assert (Hinj : ∀ n m, uuid4_hex n = uuid4_hex m → n = m)
    by exact hex_tag_inj.
  assert (H1 : calls (perform_action EnableKey s).2
               = calls s ++ [ {| ev_call := Mutate (request_of EnableKey body1);
                                 ev_result := Returned (enable_key body1) |} ])
    by (vm_compute; reflexivity).
  split; [exact Hinj|]. split; [exact H1|].
  refine (successive_sequences_differ EnableKey DisableKey s default_key
            body1 body2 (Returned (enable_key body1))
            (Returned (disable_key body2)) Hinj H1 _).
  vm_compute. reflexivity.
Defined.

(** *** More about [createKey.process] *)

Section FurtherCreate.
Context {K : host}.

Lemma for_in_app {R A L} (l1 l2 : list A) (acc : L) (body : A → L → M R L)
    (s : state R) :
  for_in (l1 ++ l2) acc body s
  = match for_in l1 acc body s with
    | (Ret acc', s') => for_in l2 acc' body s'
    | (Raise e, s') => (Raise e, s')
    end.
Proof.
  revert acc s. induction l1 as [|x l1 IH]; intros acc s; [done|].
  cbn [app for_in]. unfold bind.
  destruct (body x acc s) as [[acc'|e] s']; [apply IH | done].
Qed.

(** The second loop does nothing when every alias is already in [arr]. *)
Lemma loop_nothing_new {R} arr aliases (s : state R) :
  Forall (λ a, hashable a = true ∧ fresh arr a = false) aliases →
  for_in aliases tt (λ alias _, createKey.create_if_new arr alias) s
  = (Ret tt, s).
Proof.
  induction 1 as [|alias aliases [Hh Hf] _ IH]; [done|].
  cbn [for_in]. unfold bind. rewrite create_if_new_run.
  destruct (hashable_to_key _ Hh) as [k Hk].
  unfold fresh in Hf. rewrite Hk in Hf |- *.
  apply bool_decide_eq_false in Hf.
  rewrite bool_decide_eq_true_2; [exact IH|].
  by destruct (decide (k ∈ arr)).
Qed.

Lemma collect_unhashable details arr d :
  d ∈ details → hashable (kd_key_alias d) = false →
  collect arr details = None.
Proof.
  intros Hin Hd. revert arr.
  induction details as [|d' details IH]; intros arr;
    [by apply elem_of_nil in Hin|].
  simpl. apply elem_of_cons in Hin as [<-|Hin].
  - by rewrite (unhashable_to_key _ Hd).
  - destruct (to_key (kd_key_alias d')); [by apply IH | done].
Qed.

(** Whatever [create-key] asks to create after a successful list call
    passed the membership test against the set built from the response. *)
Lemma created_was_fresh data s resp c1 details t alias :
  client_list_keys (cloud s) list_body = (inr resp, c1) →
  key_details resp = Some details →
  calls (createKey.process data s).2 = calls s ++ t →
  create_request alias ∈ mutations t →
  ∃ arr, collect {[ KStr "default" ]} details = Some arr
         ∧ fresh arr alias = true.
Proof.
  intros Hlist Hdet Hcalls Hin. revert Hcalls.
  rewrite process_unfold, Hlist. cbv zeta. rewrite Hdet.
  assert (Hstop : calls (after_list s (Listed resp) c1) = calls s ++ t → False).
  { simpl. intros Hc. apply app_inv_head in Hc. subst t.
    by apply elem_of_nil in Hin. }
  destruct (collect _ details) as [arr|] eqn:Hc; [|by intros ?%Hstop].
  destruct (py_iter _) as [aliases|]; [|by intros ?%Hstop].
  destruct (loop_run arr aliases (after_list s (Listed resp) c1))
    as (t' & Hcalls' & _ & _ & _ & _ & _ & Hp & _).
  intros Hcalls.
  assert (Ht : t = {| ev_call := list_keys list_body;
                      ev_result := Listed resp |} :: t').
  { destruct (for_in aliases _ _ _) as [[[]|e] s2]; cbn [fst snd] in *;
      rewrite Hcalls' in Hcalls; simpl in Hcalls;
      rewrite <- app_assoc in Hcalls; by apply app_inv_head in Hcalls. }
  subst t. exists arr. split; [done|].
  change (create_request alias ∈ mutations t') in Hin.
  destruct Hp as [rest Hrest].
  assert (Hin' : create_request alias ∈ expected arr aliases).
  { rewrite Hrest. apply elem_of_app. by left. }
  unfold expected in Hin'. apply list_elem_of_fmap in Hin' as (a' & Heq & Ha').
  injection Heq as ->. apply list_elem_of_In, filter_In in Ha'. tauto.
Qed.

End FurtherCreate.

(** X10. [create-key] never asks to create the alias ["default"], nor
    an alias equal to one of the list-keys response, whatever the
    policy lists and however the run ends. *)
Theorem never_creates_default_or_known {K : host} (data : pydict)
    (s : state (list pydict)) (resp : ListKeysResponse) (c1 : conn)
    (details : list KeyDetails) (t : list event) (alias : value) :
  client_list_keys (cloud s) {| key_spec := "ALL"; limit := "1000" |} = (inr resp, c1) →
  key_details resp = Some details →
  calls (createKey.process data s).2 = calls s ++ t →
  create_request alias ∈ mutations t →
  alias ≠ VStr "default"
  ∧ ∀ d, d ∈ details → py_equal alias (kd_key_alias d) = false.
Proof.
  intros Hlist Hdet Hcalls Hin.
  destruct (created_was_fresh data s resp c1 details t alias Hlist Hdet Hcalls Hin)
    as (arr & Hc & Hfresh).
  unfold fresh in Hfresh.
  destruct (to_key alias) as [k|] eqn:Hk; [|done].
  apply bool_decide_eq_true in Hfresh.
  split.
  - intros ->. injection Hk as <-. apply Hfresh.
    apply (collect_elem _ _ _ _ Hc). left. by apply elem_of_singleton.
  - intros d Hd. unfold py_equal. rewrite Hk.
    destruct (to_key (kd_key_alias d)) as [k'|] eqn:Hk'; [|done].
    apply bool_decide_eq_false. intros ->. apply Hfresh.
    apply (collect_elem _ _ _ _ Hc). right. by exists d.
Qed.

Lemma never_creates_default_or_known_witness :
  let K := scripted [VStr "a"] None in
  let data : pydict :=
    {[ "key_aliases" := VList [VStr "a"; VStr "default"; VStr "c"] ]} in
  let s := start (K := K) [] 0%nat in
  let resp := {| key_details := Some [Build_KeyDetails (VStr "a")] |} in
  let t := [ {| ev_call := list_keys list_body; ev_result := Listed resp |};
             {| ev_call := Mutate (create_request (VStr "c"));
                ev_result := Returned (create_request (VStr "c") : @Resp K) |} ] in
  calls (createKey.process data s).2 = calls s ++ t
  ∧ create_request (VStr "c") ∈ mutations t
  ∧ VStr "c" ≠ VStr "default".
Proof.
  intros K data s resp t.
  assert (Hc : calls (createKey.process data s).2 = calls s ++ t)
    by (vm_compute; reflexivity).
  assert (Hin : create_request (VStr "c") ∈ mutations t).
  { apply list_elem_of_In. left. reflexivity. }
  split; [exact Hc|]. split; [exact Hin|].
  exact (proj1 (never_creates_default_or_known data s resp 1%nat
                  [Build_KeyDetails (VStr "a")] t (VStr "c")
                  eq_refl eq_refl Hc Hin)).
Defined.

(** X11. When every alias of the policy is ["default"] or already in the
    list-keys response, [create-key] makes the list call and nothing
    else: no create request, nothing printed, and it returns [None]. *)
Theorem nothing_new_nothing_created {K : host} (data : pydict)
    (s : state (list pydict)) (resp : ListKeysResponse) (c1 : conn)
    (details : list KeyDetails) (aliases : list value) :
  client_list_keys (cloud s) {| key_spec := "ALL"; limit := "1000" |} = (inr resp, c1) →
  key_details resp = Some details →
  Forall (λ d, hashable (kd_key_alias d) = true) details →
  py_iter (key_aliases_of data) = Some aliases →
  Forall (λ a, hashable a = true ∧ is_new details a = false) aliases →
  createKey.process data s
  = (Ret PyNone,
     {| resource := resource s; cloud := c1; uuid_drawn := uuid_drawn s;
        calls := calls s ++ [ {| ev_call := list_keys {| key_spec := "ALL";
                                                         limit := "1000" |};
                                 ev_result := Listed resp |} ];
        stdout := stdout s |}).
Proof.
  intros Hlist Hdet Hhash Hiter Hknown.
  rewrite process_unfold. fold list_body in Hlist. rewrite Hlist.
  cbv zeta. rewrite Hdet.
  destruct (collect_hashable details {[ KStr "default" ]} Hhash) as [arr Hc].
  rewrite Hc, Hiter, loop_nothing_new; [done|].
  eapply Forall_impl; [exact Hknown|].
  intros a [Hh Hn]. split; [done|]. by rewrite (fresh_is_new _ _ _ Hc Hh).
Qed.

Lemma nothing_new_nothing_created_witness :
  let K := scripted [VStr "a"; VStr "b"] None in
  let data : pydict := {[ "key_aliases" := VList [VStr "b"; VStr "default"; VStr "a"] ]} in
  let s := start (K := K) [plain_key] 0%nat in
  let details := [Build_KeyDetails (VStr "a"); Build_KeyDetails (VStr "b")] in
  Forall (λ a, hashable a = true ∧ is_new details a = false)
         [VStr "b"; VStr "default"; VStr "a"]
  ∧ (createKey.process data s).1 = Ret PyNone
  ∧ stdout (createKey.process data s).2 = [].
Proof.
  intros K data s details.
  assert (Hknown : Forall (λ a, hashable a = true ∧ is_new details a = false)
                          [VStr "b"; VStr "default"; VStr "a"])
    by (repeat constructor).
  split; [exact Hknown|].
  rewrite (nothing_new_nothing_created data s {| key_details := Some details |}
             1%nat details [VStr "b"; VStr "default"; VStr "a"]
             eq_refl eq_refl ltac:(repeat constructor)
             ltac:(vm_compute; reflexivity) Hknown).
  split; reflexivity.
Defined.

(** X12. When the listing does not yield a usable set of aliases, that
    is when [list_keys] raises, when the response has no [key_details],
    or when one of its aliases is unhashable, [create-key] stops right
    after the list call: it raises (the client's exception, or
    [TypeError]) and asks to create nothing. *)
Theorem failed_listing_creates_nothing {K : host} (data : pydict)
    (s : state (list pydict)) :
  (∀ e c', client_list_keys (cloud s) list_body = (inl e, c') →
     createKey.process data s
     = (Raise (ClientExn e), after_list s (Raised e) c'))
  ∧ (∀ resp c', client_list_keys (cloud s) list_body = (inr resp, c') →
       key_details resp = None
       ∨ (∃ details d, key_details resp = Some details ∧ d ∈ details
                       ∧ hashable (kd_key_alias d) = false) →
       createKey.process data s
       = (Raise TypeError, after_list s (Listed resp) c')).
Proof.
  split.
  - intros e c' Hlist. by rewrite process_unfold, Hlist.
  - intros resp c' Hlist Hbad. rewrite process_unfold, Hlist. cbv zeta.
    destruct Hbad as [->|(details & d & -> & Hd & Hu)]; [done|].
    by rewrite (collect_unhashable _ _ _ Hd Hu).
Qed.

Lemma failed_listing_creates_nothing_witness :
  let K := scripted [VStr "a"] (Some 0%nat) in
  let data : pydict := {[ "key_aliases" := VList [VStr "b"] ]} in
  let s := start (K := K) [plain_key] 0%nat in
  client_list_keys (cloud s) list_body = (inl "boom", 1%nat)
  ∧ createKey.process data s
    = (Raise (ClientExn "boom"), after_list s (Raised "boom") 1%nat).
Proof.
  intros K data s.
  assert (Hl : client_list_keys (cloud s) list_body = (inl "boom", 1%nat))
    by reflexivity.
  split; [exact Hl|].
  exact (proj1 (failed_listing_creates_nothing data s) "boom" 1%nat Hl).
Defined.

(** X13. The schema lets [key_aliases] hold any array elements.  An
    unhashable one (a nested list) makes the membership test raise
    [TypeError]: the aliases before it are handled as usual, with their
    keys created, and the ones after it are never looked at. *)
Theorem unhashable_alias_stops_run {K : host} (data : pydict)
    (s : state (list pydict)) (resp : ListKeysResponse) (c1 : conn)
    (details : list KeyDetails) (pre post : list value) (l : list value) :
  client_list_keys (cloud s) list_body = (inr resp, c1) →
  key_details resp = Some details →
  Forall (λ d, hashable (kd_key_alias d) = true) details →
  py_iter (key_aliases_of data) = Some (pre ++ VList l :: post) →
  Forall (λ a, hashable a = true) pre →
  client_never_raises →
  (createKey.process data s).1 = Raise TypeError
  ∧ ∃ t, calls (createKey.process data s).2
         = calls s ++ {| ev_call := list_keys list_body;
                         ev_result := Listed resp |} :: t
         ∧ mutations t = create_request <$> List.filter (is_new details) pre.
Proof.
  intros Hlist Hdet Hhash Hiter Hpre Hnr.
  rewrite process_unfold, Hlist. cbv zeta. rewrite Hdet.
  destruct (collect_hashable details {[ KStr "default" ]} Hhash) as [arr Hc].
  rewrite Hc, Hiter, for_in_app.
  destruct (loop_run arr pre (after_list s (Listed resp) c1))
    as (t & Hcalls & _ & _ & _ & _ & _ & _ & Hfull & Htot).
  specialize (Htot Hnr Hpre). specialize (Hfull Htot).
  rewrite (expected_is_new _ _ _ Hc Hpre) in Hfull.
  destruct (for_in pre _ _ _) as [[[]|e] s1]; [|done].
  cbn [for_in fst snd] in *. unfold bind. rewrite create_if_new_run.
  simpl to_key. cbn [fst snd]. split; [done|].
  exists t. split; [|done].
  rewrite Hcalls. simpl. by rewrite <- app_assoc.
Qed.

Lemma unhashable_alias_stops_run_witness :
  let K := scripted [] None in
  let data : pydict :=
    {[ "key_aliases" := VList [VStr "a"; VList [VStr "b"]; VStr "c"] ]} in
  let s := start (K := K) [plain_key] 0%nat in
  py_iter (key_aliases_of data) = Some ([VStr "a"] ++ VList [VStr "b"] :: [VStr "c"])
  ∧ (createKey.process data s).1 = Raise TypeError.
Proof.
  intros K data s.
  assert (Hiter : py_iter (key_aliases_of data)
                  = Some ([VStr "a"] ++ VList [VStr "b"] :: [VStr "c"]))
    by (vm_compute; reflexivity).
  split; [exact Hiter|].
  exact (proj1 (unhashable_alias_stops_run data s {| key_details := Some [] |}
                  1%nat [] [VStr "a"] [VStr "c"] [VStr "b"]
                  eq_refl eq_refl ltac:(constructor) Hiter
                  ltac:(repeat constructor) (scripted_never_raises []))).
Defined.

(** X14. Importing the module leaves every other entry of the three
    registries as it was: only the names it registers are written. *)
Theorem import_keeps_other_entries (g : registries) (name : string) :
  (name ∉ ["enable_key_rotation"; "disable_key_rotation"; "enable_key";
           "disable_key"; "create-key"] →
   Kms_action_registry (import_module g) !! name = Kms_action_registry g !! name)
  ∧ (name ≠ "all_keys_disable" →
     Kms_filter_registry (import_module g) !! name = Kms_filter_registry g !! name)
  ∧ (name ≠ "kms" → resources (import_module g) !! name = resources g !! name).
Proof.
  unfold import_module, register_resource, register_action, register_filter.
  cbn [resources Kms_action_registry Kms_filter_registry].
  repeat split.
  - intros Hname. set_unfold.
    repeat (rewrite lookup_insert_ne; [|intros <-; tauto]). done.
  - intros Hname. by rewrite lookup_insert_ne.
  - intros Hname. by rewrite lookup_insert_ne.
Qed.

Lemma import_keeps_other_entries_witness :
  let g := {| resources := ∅;
              Kms_action_registry := {[ "notify" := type_schema "notify" [] None ]};
              Kms_filter_registry := ∅ |} in
  ("notify" ∉ ["enable_key_rotation"; "disable_key_rotation"; "enable_key";
               "disable_key"; "create-key"])
  ∧ Kms_action_registry (import_module g) !! "notify"
    = Some (type_schema "notify" [] None).
Proof.
  intros g.
  assert (Hn : "notify" ∉ ["enable_key_rotation"; "disable_key_rotation";
                           "enable_key"; "disable_key"; "create-key"]).
  { intros Hin. apply list_elem_of_In in Hin. simpl in Hin.
    repeat destruct Hin as [Hin|Hin]; try discriminate Hin. exact Hin. }
  split; [exact Hn|].
  rewrite (proj1 (import_keeps_other_entries g "notify") Hn).
  reflexivity.
Defined.


